(** * The CLI plugin framework of [cli-plugins/plugin/plugin.go]

    A shallow embedding of the plugin bootstrap layer: the global flag
    scan of [withPluginClientConn], the command assembly of
    [newPluginCommand] and [newMetadataSubcommand], the hook installed by
    [runPlugin] and the exit status mapping of [Run].

    Go strings are byte strings and are modelled by [string]; Go's [int]
    is modelled by [Z] (the package does no arithmetic on it).  Pointers to
    [cobra.Command] are addresses in a heap of command records, so that
    the assignment to [plugin.PersistentPreRunE] made after [AddCommand] is
    seen through the command tree, as in Go; a parameter of type
    [Metadata], passed by value, is a variable of its own.  The process is
    a state (arguments, environment, streams, heap, variables) together
    with the trace of what it asked of the packages around it; calls are
    computations over that state that return, panic or exit.

    The packages that [plugin.go] only uses are modelled as far as the
    package depends on them: the string encoder and indentation of
    [encoding/json], the decoding of runes of [unicode/utf8], the command
    dispatch and the persistent pre-run hook of [cobra].  What other
    packages of the repository decide is a field of [Externals]. *)

From Stdlib Require Import ZArith Ascii String List Bool Lia.
From stdpp Require Import base option list strings gmap.
Import ListNotations.

#[local] Open Scope string_scope.
#[local] Open Scope list_scope.

(** ** Bytes and byte strings *)

Definition byteZ (b : ascii) : Z := Z.of_N (N_of_ascii b).
Definition byteOf (z : Z) : ascii := ascii_of_N (Z.to_N z).

Definition quoteChar : ascii := "034"%char.
Definition backslash : ascii := "092"%char.
Definition newlineChar : ascii := "010"%char.
Definition returnChar : ascii := "013"%char.
Definition tabChar : ascii := "009"%char.

Definition str1 (b : ascii) : string := String b "".

(** [s[:n]] and [s[n:]], for [n] within bounds. *)
Fixpoint takeS (n : nat) (s : string) : string :=
  match n, s with
  | S n', String b r => String b (takeS n' r)
  | _, _ => ""
  end.

Fixpoint dropS (n : nat) (s : string) : string :=
  match n, s with
  | S n', String _ r => dropS n' r
  | _, _ => s
  end.

(** [s[i]] for a checked index; 0 stands for an index out of range, which
    the callers below exclude by comparing with the length first. *)
Definition byteAt (s : string) (i : nat) : Z :=
  match String.get i s with
  | Some b => byteZ b
  | None => 0%Z
  end.

(** ** [unicode/utf8]: decoding one rune *)

Module utf8.

#[local] Open Scope Z_scope.

Definition RuneError : Z := 0xFFFD.
Definition RuneSelf : Z := 0x80.
Definition locb : Z := 0x80.
Definition hicb : Z := 0xBF.

(** The table [first] together with [acceptRanges]: what the first byte of
    a sequence announces. *)
Inductive firstInfo :=
| AS                                   (* ASCII: size 1 *)
| XX                                   (* invalid: size 1 *)
| Lead (sz : nat) (lo hi : Z).         (* size and accepted second byte *)

Definition first (s0 : Z) : firstInfo :=
  if s0 <? 0x80 then AS
  else if s0 <? 0xC2 then XX
  else if s0 <? 0xE0 then Lead 2 locb hicb
  else if s0 =? 0xE0 then Lead 3 0xA0 hicb
  else if s0 <? 0xED then Lead 3 locb hicb
  else if s0 =? 0xED then Lead 3 locb 0x9F
  else if s0 <? 0xF0 then Lead 3 locb hicb
  else if s0 =? 0xF0 then Lead 4 0x90 hicb
  else if s0 <? 0xF4 then Lead 4 locb hicb
  else if s0 =? 0xF4 then Lead 4 locb 0x8F
  else XX.

(** The rune that a well-formed sequence of two, three or four bytes
    stands for. *)
Definition value2 (s0 s1 : Z) : Z :=
  Z.lor (Z.shiftl (Z.land s0 0x1F) 6) (Z.land s1 0x3F).

Definition value3 (s0 s1 s2 : Z) : Z :=
  Z.lor (Z.lor (Z.shiftl (Z.land s0 0x0F) 12) (Z.shiftl (Z.land s1 0x3F) 6))
        (Z.land s2 0x3F).

Definition value4 (s0 s1 s2 s3 : Z) : Z :=
  Z.lor (Z.lor (Z.lor (Z.shiftl (Z.land s0 0x07) 18)
                      (Z.shiftl (Z.land s1 0x3F) 12))
               (Z.shiftl (Z.land s2 0x3F) 6))
        (Z.land s3 0x3F).

(** [utf8.DecodeRuneInString]: the rune at the head of [s] and its width;
    [(RuneError, 1)] for an invalid or truncated sequence. *)
Definition DecodeRuneInString (s : string) : Z * nat :=
  let n := String.length s in
  if (n <? 1)%nat then (RuneError, 0%nat) else
  let s0 := byteAt s 0 in
  match first s0 with
  | AS => (s0, 1%nat)
  | XX => (RuneError, 1%nat)
  | Lead sz lo hi =>
      if (n <? sz)%nat then (RuneError, 1%nat) else
      let s1 := byteAt s 1 in
      if (s1 <? lo) || (hi <? s1) then (RuneError, 1%nat) else
      if (sz <=? 2)%nat then (value2 s0 s1, 2%nat) else
      let s2 := byteAt s 2 in
      if (s2 <? locb) || (hicb <? s2) then (RuneError, 1%nat) else
      if (sz <=? 3)%nat then (value3 s0 s1 s2, 3%nat) else
      let s3 := byteAt s 3 in
      if (s3 <? locb) || (hicb <? s3) then (RuneError, 1%nat) else
      (value4 s0 s1 s2 s3, 4%nat)
  end.

(** [utf8.EncodeRune] for the runes a [\uXXXX] escape can name (below
    0x10000, surrogates excluded by the caller). *)
Definition EncodeRune (r : Z) : string :=
  if r <? 0x80 then str1 (byteOf r)
  else if r <? 0x800 then
    String (byteOf (Z.lor 0xC0 (Z.shiftr r 6)))
      (str1 (byteOf (Z.lor 0x80 (Z.land r 0x3F))))
  else
    String (byteOf (Z.lor 0xE0 (Z.shiftr r 12)))
      (String (byteOf (Z.lor 0x80 (Z.land (Z.shiftr r 6) 0x3F)))
         (str1 (byteOf (Z.lor 0x80 (Z.land r 0x3F))))).

End utf8.

(** ** [encoding/json]: the encoder as configured by the metadata command *)

Module json.

#[local] Open Scope Z_scope.

(** [safeSet]: ASCII bytes that need no escape in a JSON string. *)
Definition safeSet (b : Z) : bool :=
  (0x20 <=? b) && (b <? 0x80) && negb (b =? 0x22) && negb (b =? 0x5C).

(** [htmlSafeSet]: [safeSet] without [<], [>] and [&]. *)
Definition htmlSafeSet (b : Z) : bool :=
  safeSet b && negb (b =? 0x3C) && negb (b =? 0x3E) && negb (b =? 0x26).

Definition hex (d : Z) : ascii :=
  if d <? 10 then byteOf (48 + d) else byteOf (87 + d).

(** The [switch b] of the string encoder for an ASCII byte that is not
    copied. *)
Definition escapeByte (b : ascii) : string :=
  let z := byteZ b in
  if (z =? 0x5C) || (z =? 0x22) then String backslash (str1 b)
  else if z =? 0x0A then String backslash "n"
  else if z =? 0x0D then String backslash "r"
  else if z =? 0x09 then String backslash "t"
  else String backslash
         ("u00" ++ String (hex (Z.shiftr z 4)) (str1 (hex (Z.land z 0xF)))).

(** U+2028 LINE SEPARATOR and U+2029 PARAGRAPH SEPARATOR are escaped. *)
Definition isSeparator (c : Z) : bool := (c =? 0x2028) || (c =? 0x2029).

(** The loop of the string encoder: [fuel] bounds the number of runes and
    is taken to be the length of the string, which always suffices. *)
Fixpoint appendRunes (escapeHTML : bool) (fuel : nat) (src : string) : string :=
  match fuel with
  | O => ""
  | S fuel' =>
      match src with
      | "" => ""
      | String b rest =>
          if byteZ b <? utf8.RuneSelf then
            if htmlSafeSet (byteZ b) || (negb escapeHTML && safeSet (byteZ b))
            then String b (appendRunes escapeHTML fuel' rest)
            else (escapeByte b ++ appendRunes escapeHTML fuel' rest)%string
          else
            let '(c, size) := utf8.DecodeRuneInString src in
            if (c =? utf8.RuneError) && (size =? 1)%nat then
              (String backslash "ufffd"
                 ++ appendRunes escapeHTML fuel' (dropS size src))%string
            else if isSeparator c then
              (String backslash ("u202" ++ str1 (hex (Z.land c 0xF)))
                 ++ appendRunes escapeHTML fuel' (dropS size src))%string
            else
              (takeS size src
                 ++ appendRunes escapeHTML fuel' (dropS size src))%string
      end
  end.

(** What stands between the quotes. *)
Definition appendBody (escapeHTML : bool) (src : string) : string :=
  appendRunes escapeHTML (String.length src) src.

(** A Go string as a JSON string literal. *)
Definition appendString (escapeHTML : bool) (src : string) : string :=
  String quoteChar (appendBody escapeHTML src ++ str1 quoteChar).

Definition appendBool (b : bool) : string := if b then "true" else "false".

End json.

(** ** Data of the plugin framework *)

(** Modelled from the spec: the declaration of [manager.Metadata] is not
    part of this package.  The fields are those of the shape given for the
    metadata query protocol, in that order; which of them carry the
    [omitempty] tag is left to [Externals.omitempty] below. *)
Record Metadata := mkMetadata {
  SchemaVersion : string;
  Vendor : string;
  Version : string;
  ShortDescription : string;
  URL : string;
  Experimental : bool
}.

Definition withShortDescription (m : Metadata) (s : string) : Metadata :=
  {| SchemaVersion := SchemaVersion m; Vendor := Vendor m;
     Version := Version m; ShortDescription := s; URL := URL m;
     Experimental := Experimental m |}.

(** A Go [error] value, by dynamic type: [cli.StatusError] (the fields
    read by [Run]) or any other error, known by its [Error()] text. *)
Inductive error :=
| StatusError (Status : string) (StatusCode : Z)
| otherError (text : string).

(** Pointers to [cobra.Command] and to variables of type [Metadata]. *)
Abbreviation ptr := nat (only parsing).

(** The function values this package stores in command fields (all of Go
    type [func(cmd, args) error]), defunctionalised. *)
Inductive Func :=
| initializeHook (plugin : ptr)   (* the closure built by [runPlugin] *)
| metadataRunE (meta : ptr)       (* the closure built by [newMetadataSubcommand],
                                     which captures its variable [meta] *)
| authorFunc (id : nat).          (* a function of the plugin author *)

Module cobra.

(** The fields of [cobra.Command] that command dispatch reads.  A [Run]
    function of the author is a [RunE] that returns nil. *)
Record Command := mkCommand {
  Use : string;
  Aliases : list string;
  Short : string;
  Hidden : bool;
  PersistentPreRunE : option Func;
  PersistentPreRun : option Func;
  RunE : option Func;
  commands : list ptr;
  parent : option ptr
}.

Definition setPersistentPreRunE (f : option Func) (c : Command) : Command :=
  {| Use := Use c; Aliases := Aliases c; Short := Short c; Hidden := Hidden c;
     PersistentPreRunE := f; PersistentPreRun := PersistentPreRun c;
     RunE := RunE c; commands := commands c; parent := parent c |}.

Definition setParent (p : option ptr) (c : Command) : Command :=
  {| Use := Use c; Aliases := Aliases c; Short := Short c; Hidden := Hidden c;
     PersistentPreRunE := PersistentPreRunE c;
     PersistentPreRun := PersistentPreRun c;
     RunE := RunE c; commands := commands c; parent := p |}.

Definition addChild (x : ptr) (c : Command) : Command :=
  {| Use := Use c; Aliases := Aliases c; Short := Short c; Hidden := Hidden c;
     PersistentPreRunE := PersistentPreRunE c;
     PersistentPreRun := PersistentPreRun c;
     RunE := RunE c; commands := commands c ++ [x]; parent := parent c |}.

(** [Command.Name]: the first word of the usage line. *)
Fixpoint firstWord (s : string) : string :=
  match s with
  | "" => ""
  | String c r => if Ascii.eqb c " " then "" else String c (firstWord r)
  end.

Definition Name (c : Command) : string := firstWord (Use c).

(** [Command.findNext] without prefix matching: the first child that
    answers to the word, by name or alias. *)
Definition answersTo (next : string) (c : Command) : bool :=
  String.eqb (Name c) next || existsb (String.eqb next) (Aliases c).

Fixpoint findNext (h : list Command) (children : list ptr) (next : string)
  : option ptr :=
  match children with
  | [] => None
  | x :: xs =>
      match h !! x with
      | Some c => if answersTo next c then Some x else findNext h xs next
      | None => findNext h xs next
      end
  end.

(** [Command.Find] on the command words left once flags are stripped:
    descend while the next word names a child. *)
Fixpoint Find (h : list Command) (c : ptr) (words : list string)
  : ptr * list string :=
  match words with
  | [] => (c, [])
  | next :: rest =>
      match h !! c with
      | Some cmd =>
          match findNext h (commands cmd) next with
          | Some child => Find h child rest
          | None => (c, words)
          end
      | None => (c, words)
      end
  end.

(** The loop [for p := c; p != nil; p = p.Parent()] of [Command.execute]
    that picks the one persistent pre-run hook to run: the nearest
    [PersistentPreRunE], else [PersistentPreRun], going up.  [None] when the
    fuel runs out, as it does on a cyclic parent chain, where the Go loop
    does not end. *)
Inductive preRun :=
| preRunE (f : Func)
| preRunPlain (f : Func)
| noPreRun.

Fixpoint persistentPreRun (fuel : nat) (h : list Command) (p : option ptr)
  : option preRun :=
  match p with
  | None => Some noPreRun
  | Some c =>
      match fuel with
      | O => None
      | S fuel' =>
          match h !! c with
          | None => Some noPreRun
          | Some cmd =>
              match PersistentPreRunE cmd, PersistentPreRun cmd with
              | Some f, _ => Some (preRunE f)
              | None, Some f => Some (preRunPlain f)
              | None, None => persistentPreRun fuel' h (parent cmd)
              end
          end
      end
  end.

End cobra.

(** What the process does to its surroundings, in order. *)
Inductive Event :=
| EvConnectionHelper (cmd : string) (flags : list string)
    (* [connhelper.GetCommandConnectionHelper(cmd, flags...)] *)
| EvNewClient                       (* [client.NewClientWithOpts] *)
| EvAuthor (id : nat)               (* a function of the plugin author ran *)
| EvHelp (c : ptr).                 (* cobra printed the help of [c] *)

(** The state of the process.  Streams hold the bytes handed to them. *)
Record World := mkWorld {
  osArgs : list string;
  environ : gmap string string;
  osStdout : string;
  stdoutFault : option error;       (* the error of a write to os.Stdout, if any *)
  osStderr : string;
  cliErr : string;                  (* [dockerCli.Err()] *)
  clientReady : bool;               (* the API client of [dockerCli] is set *)
  heap : list cobra.Command;
  metas : list Metadata;            (* variables of type [Metadata] *)
  trace : list Event
}.

Definition withHeap (h : list cobra.Command) (w : World) : World :=
  {| osArgs := osArgs w; environ := environ w; osStdout := osStdout w;
     stdoutFault := stdoutFault w; osStderr := osStderr w; cliErr := cliErr w;
     clientReady := clientReady w; heap := h; metas := metas w;
     trace := trace w |}.

Definition withMetas (ms : list Metadata) (w : World) : World :=
  {| osArgs := osArgs w; environ := environ w; osStdout := osStdout w;
     stdoutFault := stdoutFault w; osStderr := osStderr w; cliErr := cliErr w;
     clientReady := clientReady w; heap := heap w; metas := ms;
     trace := trace w |}.

Definition withTrace (t : list Event) (w : World) : World :=
  {| osArgs := osArgs w; environ := environ w; osStdout := osStdout w;
     stdoutFault := stdoutFault w; osStderr := osStderr w; cliErr := cliErr w;
     clientReady := clientReady w; heap := heap w; metas := metas w;
     trace := t |}.

Definition withStdout (s : string) (w : World) : World :=
  {| osArgs := osArgs w; environ := environ w; osStdout := s;
     stdoutFault := stdoutFault w; osStderr := osStderr w; cliErr := cliErr w;
     clientReady := clientReady w; heap := heap w; metas := metas w;
     trace := trace w |}.

Definition withStderr (s : string) (w : World) : World :=
  {| osArgs := osArgs w; environ := environ w; osStdout := osStdout w;
     stdoutFault := stdoutFault w; osStderr := s; cliErr := cliErr w;
     clientReady := clientReady w; heap := heap w; metas := metas w;
     trace := trace w |}.

Definition withCliErr (s : string) (w : World) : World :=
  {| osArgs := osArgs w; environ := environ w; osStdout := osStdout w;
     stdoutFault := stdoutFault w; osStderr := osStderr w; cliErr := s;
     clientReady := clientReady w; heap := heap w; metas := metas w;
     trace := trace w |}.

Definition withClientReady (b : bool) (w : World) : World :=
  {| osArgs := osArgs w; environ := environ w; osStdout := osStdout w;
     stdoutFault := stdoutFault w; osStderr := osStderr w; cliErr := cliErr w;
     clientReady := b; heap := heap w; metas := metas w;
     trace := trace w |}.

(** ** Computations of the process

    A call returns a value, panics, ends the process, or does not return.
    [Exit] carries the exit status of the process, the number its parent
    reads. *)
Inductive Res (A : Type) :=
| Val (a : A)
| Panic (msg : string)
| Exit (status : Z)
| Diverge.

Arguments Val {A} a.
Arguments Panic {A} msg.
Arguments Exit {A} status.
Arguments Diverge {A}.

Definition M (A : Type) : Type := World -> World * Res A.

Definition ret {A} (a : A) : M A := fun w => (w, Val a).

Definition bind {A B} (m : M A) (k : A -> M B) : M B :=
  fun w =>
    match m w with
    | (w', Val a) => k a w'
    | (w', Panic msg) => (w', Panic msg)
    | (w', Exit status) => (w', Exit status)
    | (w', Diverge) => (w', Diverge)
    end.

Notation "'do' x <- m ; k" := (bind m (fun x => k))
  (at level 10, x name, m at level 100, k at level 200,
   format "'[v' 'do'  x  <-  m ; '/' k ']'").
Notation "m ;; k" := (bind m (fun _ => k))
  (at level 100, k at level 200, right associativity).

Definition panic {A} (msg : string) : M A := fun w => (w, Panic msg).

(** [os.Exit(code)] hands the Go [int] to the exit system call; of that
    number the parent of the process reads the low 8 bits (the status of a
    POSIX process), so [os.Exit(256)] is read as 0 and [os.Exit(-1)] as
    255. *)
Definition exitStatus (code : Z) : Z := code mod 256.

Definition osExit {A} (code : Z) : M A := fun w => (w, Exit (exitStatus code)).
Definition diverge {A} : M A := fun w => (w, Diverge).
Definition ask {A} (f : World -> A) : M A := fun w => (w, Val (f w)).
Definition modify (f : World -> World) : M unit := fun w => (f w, Val tt).

Definition emit (e : Event) : M unit :=
  modify (fun w => withTrace (trace w ++ [e]) w).

(** [*p] for a command pointer; nil and dangling pointers panic. *)
Definition deref (p : ptr) : M cobra.Command :=
  fun w =>
    match heap w !! p with
    | Some c => (w, Val c)
    | None => (w, Panic "nil pointer dereference")
    end.

(** [&cobra.Command{...}]. *)
Definition alloc (c : cobra.Command) : M ptr :=
  fun w => (withHeap (heap w ++ [c]) w, Val (length (heap w))).

Definition update (p : ptr) (f : cobra.Command -> cobra.Command) : M unit :=
  do c <- deref p;
  modify (fun w => withHeap (<[p := f c]> (heap w)) w).

(** Variables of type [Metadata]: a parameter passed by value is a new
    variable that holds a copy. *)
Definition newMetaVar (m : Metadata) : M ptr :=
  fun w => (withMetas (metas w ++ [m]) w, Val (length (metas w))).

Definition readMeta (v : ptr) : M Metadata :=
  fun w =>
    match metas w !! v with
    | Some m => (w, Val m)
    | None => (w, Panic "nil pointer dereference")
    end.

Definition writeMeta (v : ptr) (m : Metadata) : M unit :=
  modify (fun w => withMetas (<[v := m]> (metas w)) w).

(** [fmt.Fprintln] to the three streams. *)
Definition FprintlnStderr (s : string) : M unit :=
  modify (fun w => withStderr (osStderr w ++ s ++ str1 newlineChar) w).

Definition FprintlnCliErr (s : string) : M unit :=
  modify (fun w => withCliErr (cliErr w ++ s ++ str1 newlineChar) w).

(** [os.Getenv]: the empty string for an unset variable. *)
Definition Getenv (key : string) : M string :=
  ask (fun w => default "" (environ w !! key)).

(** [os.Args[1:]]: slicing an empty [os.Args] from 1 panics. *)
Definition argsFrom1 : M (list string) :=
  fun w =>
    match osArgs w with
    | [] => (w, Panic "slice bounds out of range")
    | _ :: argv => (w, Val argv)
    end.

(** ** What this package takes from outside

    Constants and functions of other packages that [plugin.go] uses and
    whose code is not part of it. *)
Record Externals := mkExternals {
  (* constants of package manager *)
  ReexecEnvvar : string;
  NamePrefix : string;
  MetadataSubcommandName : string;
  (* the json tags of manager.Metadata: is the field omitted when empty *)
  omitempty : string -> bool;
  (* cli.StatusError.Error *)
  statusErrorText : string -> Z -> string;
  (* command.NewDockerCli: the error it returns, if any *)
  NewDockerCli : World -> option error;
  (* connhelper.GetCommandConnectionHelper: the error it returns, if any *)
  GetCommandConnectionHelper : string -> list string -> option error;
  (* client.NewClientWithOpts: the error it returns, if any *)
  NewClientWithOpts : World -> option error;
  (* what TopLevelCommand.Initialize does once the client factory has
     returned a client: the error it returns, if any *)
  initializeRest : World -> option error;
  (* the parsing of global flags by TopLevelCommand.HandleGlobalFlags *)
  parseGlobalFlags : list string -> option error;
  (* the command words and arguments cobra is left with after flags *)
  stripFlags : list string -> list string;
  (* how a function of the plugin author ends: it returns an error or nil,
     panics, ends the process, or does not return *)
  authorResult : nat -> World -> Res (option error)
}.

Definition errorText (X : Externals) (e : error) : string :=
  match e with
  | StatusError s c => statusErrorText X s c
  | otherError t => t
  end.

(** ** The encoder on a [Metadata] value

    [json.NewEncoder(os.Stdout)] with [SetEscapeHTML(false)] and
    [SetIndent("", "     ")]: the members that are not omitted, in
    declaration order, one per line at depth 1, and a final newline. *)
Section Encoder.

Context (X : Externals).

Definition stringMember (escapeHTML : bool) (key val : string)
  : list (string * string) :=
  if omitempty X key && String.eqb val "" then []
  else [(key, json.appendString escapeHTML val)].

Definition boolMember (key : string) (val : bool) : list (string * string) :=
  if omitempty X key && negb val then []
  else [(key, json.appendBool val)].

Definition marshalMembers (escapeHTML : bool) (m : Metadata)
  : list (string * string) :=
  stringMember escapeHTML "SchemaVersion" (SchemaVersion m)
  ++ stringMember escapeHTML "Vendor" (Vendor m)
  ++ stringMember escapeHTML "Version" (Version m)
  ++ stringMember escapeHTML "ShortDescription" (ShortDescription m)
  ++ stringMember escapeHTML "URL" (URL m)
  ++ boolMember "Experimental" (Experimental m).

Fixpoint repeatS (s : string) (n : nat) : string :=
  match n with
  | O => ""
  | S n' => (s ++ repeatS s n')%string
  end.

(** The line break of [json.Indent] at a nesting depth. *)
Definition indentNewline (prefix indent : string) (depth : nat) : string :=
  String newlineChar (prefix ++ repeatS indent depth).

Definition renderMember (kv : string * string) : string :=
  (String quoteChar (kv.1 ++ str1 quoteChar) ++ ": " ++ kv.2)%string.

Fixpoint renderMembers (sep : string) (ms : list (string * string)) : string :=
  match ms with
  | [] => ""
  | [kv] => renderMember kv
  | kv :: rest => (renderMember kv ++ sep ++ renderMembers sep rest)%string
  end.

Definition renderObject (prefix indent : string) (ms : list (string * string))
  : string :=
  match ms with
  | [] => "{}"
  | _ =>
      ("{" ++ indentNewline prefix indent 1
       ++ renderMembers ("," ++ indentNewline prefix indent 1) ms
       ++ indentNewline prefix indent 0 ++ "}")%string
  end.

(** The bytes of one [Encode] call: the value, then a newline. *)
Definition encodeBytes (escapeHTML : bool) (prefix indent : string)
    (m : Metadata) : string :=
  (renderObject prefix indent (marshalMembers escapeHTML m)
   ++ str1 newlineChar)%string.

(** The encoder of the metadata command. *)
Definition metadataBytes (m : Metadata) : string :=
  encodeBytes false "" "     " m.

(** [enc.Encode(meta)] on [os.Stdout]: a value of this type always
    marshals, so the only error is that of the write. *)
Definition Encode (m : Metadata) : M (option error) :=
  fun w =>
    match stdoutFault w with
    | Some e => (w, Val (Some e))
    | None => (withStdout (osStdout w ++ metadataBytes m) w, Val None)
    end.

End Encoder.

(** ** [plugin.go] *)

(** The loop of [withPluginClientConn]:
    [for _, a := range os.Args[1:] { if a == name { break }; flags = append(flags, a) }],
    with [flags] the accumulator and [args] what is left of the range. *)
Fixpoint scanArgs (name : string) (flags args : list string) : list string :=
  match args with
  | [] => flags
  | a :: rest =>
      if String.eqb a name then flags
      else scanArgs name (flags ++ [a]) rest
  end.

(** [var flags []string], the loop, then
    [flags = append(flags, "system", "dial-stdio")]. *)
Definition dialStdioFlags (name : string) (argv : list string) : list string :=
  scanArgs name [] argv ++ ["system"; "dial-stdio"].

Section Plugin.

Context (X : Externals).

(** The client factory that [withPluginClientConn name] hands to
    [command.WithInitializeClient]; [Some err] is [(nil, err)]. *)
Definition withPluginClientConn (name : string) : M (option error) :=
  do x <- Getenv (ReexecEnvvar X);
  let cmd := if String.eqb x "" then "docker" else x in
  do argv <- argsFrom1;
  let flags := dialStdioFlags name argv in
  emit (EvConnectionHelper cmd flags);;
  match GetCommandConnectionHelper X cmd flags with
  | Some err => ret (Some err)
  | None => emit EvNewClient;; ask (NewClientWithOpts X)
  end.

(** Modelled from the spec: [TopLevelCommand.Initialize] is not part of
    this package.  It runs the registered client factory and fails with the
    factory's error before anything else happens.  With the client that the
    factory returned set, it goes on with the rest of the initialization of
    the CLI, of which the spec says nothing: it is [initializeRest], and may
    fail too. *)
Definition Initialize (makeClient : M (option error)) : M (option error) :=
  do err <- makeClient;
  match err with
  | Some e => ret (Some e)
  | None => modify (withClientReady true);; ask (initializeRest X)
  end.

(** Calling a stored function value. *)
Definition call (f : Func) : M (option error) :=
  match f with
  | initializeHook plugin =>
      do p <- deref plugin;
      Initialize (withPluginClientConn (cobra.Name p))
  | metadataRunE meta =>
      do m <- readMeta meta;
      Encode X m
  | authorFunc id =>
      emit (EvAuthor id);;
      fun w => (w, authorResult X id w)
  end.

(** [Command.Execute] on the root: find the command the words select; a
    command without run function prints help; otherwise the one persistent
    pre-run hook found going up from the command runs, then the command's
    own function.  The hooks that only the author can set ([PreRun],
    [PostRun] and the like) run around the command's own function and are
    part of what [authorFunc] stands for. *)
Definition Execute (root : ptr) : M (option error) :=
  do argv <- argsFrom1;
  do h <- ask heap;
  let target := (cobra.Find h root (stripFlags X argv)).1 in
  do c <- deref target;
  match cobra.RunE c with
  | None => emit (EvHelp target);; ret None
  | Some run =>
      match cobra.persistentPreRun (S (length h)) h (Some target) with
      | None => diverge
      | Some hook =>
          do err <- match hook with
                    | cobra.preRunE f => call f
                    | cobra.preRunPlain f => call f;; ret None
                    | cobra.noPreRun => ret None
                    end;
          match err with
          | Some e => ret (Some e)
          | None => call run
          end
      end
  end.

(** [Command.AddCommand]. *)
Fixpoint AddCommand (c : ptr) (cmds : list ptr) : M unit :=
  match cmds with
  | [] => ret tt
  | x :: rest =>
      if Nat.eqb x c then panic "Command can't be a child of itself"
      else
        update x (cobra.setParent (Some c));;
        update c (cobra.addChild x);;
        AddCommand c rest
  end.

(** Modelled from the spec: [TopLevelCommand.HandleGlobalFlags] is not part
    of this package.  It parses the global flags of [os.Args[1:]] and
    returns a command of the tree of [tcmd], whose [Execute] is that of the
    root.  Of what else it does when the flags do not parse the spec says
    nothing, and the model has it do nothing. *)
Definition HandleGlobalFlags (tcmd : ptr) : M (ptr * option error) :=
  do argv <- argsFrom1;
  ret (tcmd, parseGlobalFlags X argv).

(** [&cobra.Command{Use: manager.MetadataSubcommandName, Hidden: true, RunE: ...}],
    the closure referring to the variable [meta] of the enclosing call. *)
Definition metadataLiteral (meta : ptr) : cobra.Command :=
  {| cobra.Use := MetadataSubcommandName X;
     cobra.Aliases := [];
     cobra.Short := "";
     cobra.Hidden := true;
     cobra.PersistentPreRunE := None;
     cobra.PersistentPreRun := None;
     cobra.RunE := Some (metadataRunE meta);
     cobra.commands := [];
     cobra.parent := None |}.

(** The record of [newMetadataSubcommand] after its first statement. *)
Definition defaultShortDescription (meta : Metadata) (short : string) : Metadata :=
  if String.eqb (ShortDescription meta) "" then withShortDescription meta short
  else meta.

Definition newMetadataSubcommand (plugin : ptr) (meta : Metadata) : M ptr :=
  do v <- newMetaVar meta;
  do m <- readMeta v;
  (if String.eqb (ShortDescription m) "" then
     do p <- deref plugin;
     writeMeta v (withShortDescription m (cobra.Short p))
   else ret tt);;
  alloc (metadataLiteral v).

(** [&cobra.Command{Use: fmt.Sprintf("docker [OPTIONS] %s [ARG...]", name),
    Short: fullname + " is a Docker CLI plugin", ...}]. *)
Definition rootLiteral (name fullname : string) : cobra.Command :=
  {| cobra.Use := ("docker [OPTIONS] " ++ name ++ " [ARG...]")%string;
     cobra.Aliases := [];
     cobra.Short := (fullname ++ " is a Docker CLI plugin")%string;
     cobra.Hidden := false;
     cobra.PersistentPreRunE := None;
     cobra.PersistentPreRun := None;
     cobra.RunE := None;
     cobra.commands := [];
     cobra.parent := None |}.

(** Modelled from the spec: [cli.SetupPluginRootCommand] is not part of this
    package.  It contributes the shared root-level flags and help
    scaffolding, none of which is a field of the model, and installs no
    function on the command. *)
Definition SetupPluginRootCommand (rootCmd : ptr) : M unit := ret tt.

(** Modelled from the spec: [cli.DisableFlagsInUseLine] is not part of this
    package.  It changes how usage lines are rendered, which the model does
    not hold.  The children of a command stay in the order of [AddCommand]
    in the model; cobra may reorder them when it lists them. *)
Definition DisableFlagsInUseLine (cmd : ptr) : M unit := ret tt.

(** The result is the root command that [cli.NewTopLevelCommand] wraps;
    [cmd.SetOutput] redirects cobra's own messages, which the model does
    not print. *)
Definition newPluginCommand (plugin : ptr) (meta : Metadata) : M ptr :=
  do p <- deref plugin;
  let name := cobra.Name p in
  let fullname := (NamePrefix X ++ name)%string in
  do cmd <- alloc (rootLiteral name fullname);
  SetupPluginRootCommand cmd;;
  do md <- newMetadataSubcommand plugin meta;
  AddCommand cmd [plugin; md];;
  DisableFlagsInUseLine cmd;;
  ret cmd.

Definition runPlugin (plugin : ptr) (meta : Metadata) : M (option error) :=
  do tcmd <- newPluginCommand plugin meta;
  update plugin (cobra.setPersistentPreRunE (Some (initializeHook plugin)));;
  do r <- HandleGlobalFlags tcmd;
  match r.2 with
  | Some err => ret (Some err)
  | None => Execute r.1
  end.

(** [makeCmd] is the author's constructor of the plugin command. *)
Definition Run (makeCmd : M ptr) (meta : Metadata) : M unit :=
  do e <- ask (NewDockerCli X);
  match e with
  | Some err => FprintlnStderr (errorText X err);; osExit 1
  | None =>
      do plugin <- makeCmd;
      do err <- runPlugin plugin meta;
      match err with
      | None => ret tt
      | Some (StatusError Status StatusCode) =>
          (if negb (String.eqb Status "") then FprintlnCliErr Status
           else ret tt);;
          (if (StatusCode =? 0)%Z then osExit 1 else ret tt);;
          osExit StatusCode
      | Some err => FprintlnCliErr (errorText X err);; osExit 1
      end
  end.

End Plugin.

(** ** Reading the output back

    The consumer's side of the metadata protocol, not part of [plugin.go]:
    a reader of JSON text (objects of strings and booleans, as the metadata
    document is) into a [Metadata] record, used to state what the written
    bytes mean. *)
Module jsonread.

#[local] Open Scope Z_scope.

Inductive token :=
| TLBrace | TRBrace | TColon | TComma
| TString (s : string)
| TTrue | TFalse.

Definition isSpace (c : ascii) : bool :=
  let z := byteZ c in (z =? 0x20) || (z =? 0x09) || (z =? 0x0A) || (z =? 0x0D).

Definition hexVal (c : ascii) : option Z :=
  let z := byteZ c in
  if (48 <=? z) && (z <=? 57) then Some (z - 48)
  else if (97 <=? z) && (z <=? 102) then Some (z - 87)
  else if (65 <=? z) && (z <=? 70) then Some (z - 55)
  else None.

Definition hex4 (h1 h2 h3 h4 : ascii) : option Z :=
  match hexVal h1, hexVal h2, hexVal h3, hexVal h4 with
  | Some a, Some b, Some c, Some d => Some (((a * 16 + b) * 16 + c) * 16 + d)
  | _, _, _, _ => None
  end.

(** The single-letter escapes. *)
Definition unescape (e : ascii) : option ascii :=
  let z := byteZ e in
  if (z =? 0x22) || (z =? 0x5C) || (z =? 0x2F) then Some e
  else if z =? 0x62 then Some (byteOf 8)
  else if z =? 0x66 then Some (byteOf 12)
  else if z =? 0x6E then Some newlineChar
  else if z =? 0x72 then Some returnChar
  else if z =? 0x74 then Some tabChar
  else None.

Definition isSurrogate (r : Z) : bool := (0xD800 <=? r) && (r <=? 0xDFFF).

(** The tokens of a text.  [acc] is [None] between tokens and holds the
    bytes read so far inside a string literal.  Escapes that name a
    surrogate are not read (the encoder never writes one). *)
Fixpoint lex (acc : option string) (s : string) : option (list token) :=
  match acc with
  | None =>
      match s with
      | "" => Some []
      | String c r =>
          if isSpace c then lex None r
          else if Ascii.eqb c "{" then cons TLBrace <$> lex None r
          else if Ascii.eqb c "}" then cons TRBrace <$> lex None r
          else if Ascii.eqb c ":" then cons TColon <$> lex None r
          else if Ascii.eqb c "," then cons TComma <$> lex None r
          else if Ascii.eqb c quoteChar then lex (Some "") r
          else
            match r with
            | String c1 (String c2 (String c3 r3)) =>
                if Ascii.eqb c "t" && Ascii.eqb c1 "r" && Ascii.eqb c2 "u"
                   && Ascii.eqb c3 "e"
                then cons TTrue <$> lex None r3
                else
                  match r3 with
                  | String c4 r4 =>
                      if Ascii.eqb c "f" && Ascii.eqb c1 "a" && Ascii.eqb c2 "l"
                         && Ascii.eqb c3 "s" && Ascii.eqb c4 "e"
                      then cons TFalse <$> lex None r4
                      else None
                  | "" => None
                  end
            | _ => None
            end
      end
  | Some a =>
      match s with
      | "" => None
      | String c r =>
          if Ascii.eqb c quoteChar then cons (TString a) <$> lex None r
          else if Ascii.eqb c backslash then
            match r with
            | "" => None
            | String e r' =>
                if Ascii.eqb e "u" then
                  match r' with
                  | String h1 (String h2 (String h3 (String h4 r''))) =>
                      match hex4 h1 h2 h3 h4 with
                      | Some v =>
                          if isSurrogate v then None
                          else lex (Some (a ++ utf8.EncodeRune v)%string) r''
                      | None => None
                      end
                  | _ => None
                  end
                else
                  match unescape e with
                  | Some b => lex (Some (a ++ str1 b)%string) r'
                  | None => None
                  end
            end
          else if byteZ c <? 0x20 then None
          else lex (Some (a ++ str1 c)%string) r
      end
  end.

Definition zeroMetadata : Metadata :=
  {| SchemaVersion := ""; Vendor := ""; Version := ""; ShortDescription := "";
     URL := ""; Experimental := false |}.

(** One member of the object stored into the record; members with other
    names are skipped, a value of the wrong kind is an error. *)
Definition setField (key : string) (val : token) (m : Metadata)
  : option Metadata :=
  match val with
  | TString s =>
      if String.eqb key "SchemaVersion" then
        Some {| SchemaVersion := s; Vendor := Vendor m; Version := Version m;
                ShortDescription := ShortDescription m; URL := URL m;
                Experimental := Experimental m |}
      else if String.eqb key "Vendor" then
        Some {| SchemaVersion := SchemaVersion m; Vendor := s;
                Version := Version m; ShortDescription := ShortDescription m;
                URL := URL m; Experimental := Experimental m |}
      else if String.eqb key "Version" then
        Some {| SchemaVersion := SchemaVersion m; Vendor := Vendor m;
                Version := s; ShortDescription := ShortDescription m;
                URL := URL m; Experimental := Experimental m |}
      else if String.eqb key "ShortDescription" then
        Some (withShortDescription m s)
      else if String.eqb key "URL" then
        Some {| SchemaVersion := SchemaVersion m; Vendor := Vendor m;
                Version := Version m; ShortDescription := ShortDescription m;
                URL := s; Experimental := Experimental m |}
      else if String.eqb key "Experimental" then None
      else Some m
  | TTrue | TFalse =>
      if String.eqb key "Experimental" then
        Some {| SchemaVersion := SchemaVersion m; Vendor := Vendor m;
                Version := Version m; ShortDescription := ShortDescription m;
                URL := URL m;
                Experimental := match val with TTrue => true | _ => false end |}
      else if String.eqb key "SchemaVersion" || String.eqb key "Vendor"
              || String.eqb key "Version" || String.eqb key "ShortDescription"
              || String.eqb key "URL"
      then None
      else Some m
  | _ => None
  end.

Fixpoint parseMembers (m : Metadata) (ts : list token) : option Metadata :=
  match ts with
  | TString key :: TColon :: val :: rest =>
      match setField key val m with
      | None => None
      | Some m' =>
          match rest with
          | [TRBrace] => Some m'
          | TComma :: rest' => parseMembers m' rest'
          | _ => None
          end
      end
  | _ => None
  end.

(** A text is read as a record when it is exactly one object, with
    nothing but white space around it. *)
Definition parseMetadata (text : string) : option Metadata :=
  match lex None text with
  | Some [TLBrace; TRBrace] => Some zeroMetadata
  | Some (TLBrace :: ts) => parseMembers zeroMetadata ts
  | _ => None
  end.

(** What a reader gets back for a Go string: the encoder writes every
    byte that is not part of a well-formed UTF-8 sequence as U+FFFD. *)
Fixpoint coerceRunes (fuel : nat) (src : string) : string :=
  match fuel with
  | O => ""
  | S fuel' =>
      match src with
      | "" => ""
      | String b rest =>
          if byteZ b <? utf8.RuneSelf then String b (coerceRunes fuel' rest)
          else
            let '(c, size) := utf8.DecodeRuneInString src in
            if (c =? utf8.RuneError) && (size =? 1)%nat then
              (utf8.EncodeRune utf8.RuneError
                 ++ coerceRunes fuel' (dropS size src))%string
            else (takeS size src ++ coerceRunes fuel' (dropS size src))%string
      end
  end.

Definition coerceUTF8 (s : string) : string := coerceRunes (String.length s) s.

Definition coerceMetadata (m : Metadata) : Metadata :=
  {| SchemaVersion := coerceUTF8 (SchemaVersion m);
     Vendor := coerceUTF8 (Vendor m);
     Version := coerceUTF8 (Version m);
     ShortDescription := coerceUTF8 (ShortDescription m);
     URL := coerceUTF8 (URL m);
     Experimental := Experimental m |}.

End jsonread.

(** ** Instances used by the examples *)

Module Examples.

(** Constants in the form the docker CLI uses for its plugins; every
    field is tagged [omitempty]; the example runs pass no flags, so every
    argument is a command word; author function 0 fails with status "M"
    and code 3, author function 1 fails with an empty status and code 0,
    author function 3 fails with the code 256, the others succeed. *)
Definition externals : Externals :=
  {| ReexecEnvvar := "DOCKER_CLI_PLUGIN_ORIGINAL_CLI_COMMAND";
     NamePrefix := "docker-";
     MetadataSubcommandName := "docker-cli-plugin-metadata";
     omitempty := fun _ => true;
     statusErrorText := fun s _ => s;
     NewDockerCli := fun _ => None;
     GetCommandConnectionHelper := fun _ _ => None;
     NewClientWithOpts := fun _ => None;
     initializeRest := fun _ => None;
     parseGlobalFlags := fun _ => None;
     stripFlags := fun argv => argv;
     authorResult := fun id _ =>
       match id with
       | 0 => Val (Some (StatusError "M" 3))
       | 1 => Val (Some (StatusError "" 0))
       | 3 => Val (Some (StatusError "no such image" 256))
       | _ => Val None
       end |}.

(** A plugin command with the run function [run] and a pre-run hook of
    its own (author function 7). *)
Definition pluginCommand (short : string) (run : nat) : cobra.Command :=
  {| cobra.Use := "myplugin [ARG...]";
     cobra.Aliases := [];
     cobra.Short := short;
     cobra.Hidden := false;
     cobra.PersistentPreRunE := Some (authorFunc 7);
     cobra.PersistentPreRun := None;
     cobra.RunE := Some (authorFunc run);
     cobra.commands := [];
     cobra.parent := None |}.

(** A fresh process started with the given arguments, in which the author
    has built the plugin command (at address 0) and holds the metadata
    record in a variable (at address 0). *)
Definition world (argv : list string) (pc : cobra.Command) (meta : Metadata)
  : World :=
  {| osArgs := "docker-myplugin" :: argv;
     environ := ∅;
     osStdout := "";
     stdoutFault := None;
     osStderr := "";
     cliErr := "";
     clientReady := false;
     heap := [pc];
     metas := [meta];
     trace := [] |}.

Definition metadata (short : string) : Metadata :=
  {| SchemaVersion := "0.1.0"; Vendor := "ACME <Labs> & Co";
     Version := ""; ShortDescription := short; URL := "";
     Experimental := false |}.

(** The three runs of the examples: a metadata query, the plugin command
    failing with ("M", 3), and failing with ("", 0). *)
Definition queryWorld (short : string) (meta : Metadata) : World :=
  world ["docker-cli-plugin-metadata"] (pluginCommand short 0) meta.

Definition failingWorld (run : nat) : World :=
  world ["myplugin"] (pluginCommand "An example" run) (metadata "").

(** Another metadata query, later in the life of a process: the plugin
    command is at address 1 and the query has a trailing argument. *)
Definition laterWorld (short : string) : World :=
  {| osArgs := ["/usr/libexec/docker/cli-plugins/docker-myplugin";
                "docker-cli-plugin-metadata"; "extra"];
     environ := {[ "DOCKER_CLI_PLUGIN_ORIGINAL_CLI_COMMAND" := "/usr/bin/docker" ]};
     osStdout := "earlier output";
     stdoutFault := None;
     osStderr := "a warning";
     cliErr := "";
     clientReady := false;
     heap := [pluginCommand "Another command" 5; pluginCommand short 0];
     metas := [];
     trace := [EvAuthor 9] |}.

End Examples.

(** ** The assembled command tree, written out *)

(** The heap once [runPlugin] has built the tree over a heap [h] that holds
    the plugin command [pc]: the plugin command, now [pcNow], stays where it
    is, the root is allocated at [length h] and the metadata command, whose
    closure refers to the variable [v], right after it. *)
Definition treeHeap (X : Externals) (h : list cobra.Command) (plugin : ptr)
    (pc pcNow : cobra.Command) (v : ptr) : list cobra.Command :=
  let n := length h in
  <[plugin := pcNow]> h
  ++ [cobra.addChild (S n)
        (cobra.addChild plugin
           (rootLiteral (cobra.Name pc) (NamePrefix X ++ cobra.Name pc)%string));
      cobra.setParent (Some n) (metadataLiteral X v)].

(** The plugin command as [AddCommand] leaves it, and as [runPlugin] leaves
    it after the assignment to [plugin.PersistentPreRunE]. *)
Definition adopted (h : list cobra.Command) (pc : cobra.Command) : cobra.Command :=
  cobra.setParent (Some (length h)) pc.

Definition hooked (h : list cobra.Command) (plugin : ptr) (pc : cobra.Command)
  : cobra.Command :=
  cobra.setPersistentPreRunE (Some (initializeHook plugin)) (adopted h pc).

(** The world after [newPluginCommand], and after the assignment. *)
Definition assembled (X : Externals) (plugin : ptr) (pc : cobra.Command)
    (meta : Metadata) (w : World) : World :=
  withHeap (treeHeap X (heap w) plugin pc (adopted (heap w) pc) (length (metas w)))
    (withMetas (metas w ++ [defaultShortDescription meta (cobra.Short pc)]) w).

Definition ready (X : Externals) (plugin : ptr) (pc : cobra.Command)
    (meta : Metadata) (w : World) : World :=
  withHeap (treeHeap X (heap w) plugin pc (hooked (heap w) plugin pc)
              (length (metas w)))
    (withMetas (metas w ++ [defaultShortDescription meta (cobra.Short pc)]) w).

(** The exit status [Run] maps a structured failure to: that of
    [os.Exit(1)] when the carried code is 0, that of [os.Exit(code)]
    otherwise. *)
Definition statusExitCode (code : Z) : Z :=
  if (code =? 0)%Z then 1%Z else exitStatus code.

(** ** Vocabulary of the statements *)

(** The events of the connection bridge. *)
Definition isBridgeEvent (e : Event) : bool :=
  match e with
  | EvConnectionHelper _ _ | EvNewClient => true
  | _ => false
  end.

Definition bridgeFree (evs : list Event) : bool :=
  forallb (fun e => negb (isBridgeEvent e)) evs.

(** Does the first command word select the plugin's own command. *)
Definition selectsPlugin (X : Externals) (pc : cobra.Command)
    (argv : list string) : bool :=
  match stripFlags X argv with
  | [] => false
  | word :: _ => cobra.answersTo word pc
  end.

(** A metadata query: the process holds the plugin command [pc] at
    [plugin], its global flags parse, its first command word is the name of
    the metadata subcommand, to which the plugin command does not answer,
    and standard output accepts writes. *)
Definition metadataQuery (X : Externals) (plugin : ptr) (pc : cobra.Command)
    (w : World) : Prop :=
  exists prog argv rest,
    heap w !! plugin = Some pc /\
    osArgs w = prog :: argv /\
    parseGlobalFlags X argv = None /\
    stripFlags X argv = MetadataSubcommandName X :: rest /\
    cobra.answersTo (MetadataSubcommandName X) pc = false /\
    stdoutFault w = None.

(** The name of the metadata subcommand is one word. *)
Definition oneWordName (X : Externals) : Prop :=
  cobra.firstWord (MetadataSubcommandName X) = MetadataSubcommandName X.

(** ** Vocabulary of the proofs *)

Section Vocabulary.

Import utf8 json jsonread.
#[local] Open Scope Z_scope.

(** What [DecodeRuneInString] returns at a byte that is not ASCII: an
    error of width 1, or a well-formed sequence and its rune. *)
Inductive decoded (b0 : ascii) (r : string) : Z -> nat -> Prop :=
| decodedError : decoded b0 r RuneError 1
| decoded2 b1 r' :
    r = String b1 r' ->
    0xC2 <= byteZ b0 <= 0xDF -> 0x80 <= byteZ b1 <= 0xBF ->
    decoded b0 r (value2 (byteZ b0) (byteZ b1)) 2
| decoded3 b1 b2 r' :
    r = String b1 (String b2 r') ->
    0xE0 <= byteZ b0 <= 0xEF -> 0x80 <= byteZ b1 <= 0xBF ->
    0x80 <= byteZ b2 <= 0xBF ->
    decoded b0 r (value3 (byteZ b0) (byteZ b1) (byteZ b2)) 3
| decoded4 b1 b2 b3 r' :
    r = String b1 (String b2 (String b3 r')) ->
    0xF0 <= byteZ b0 <= 0xF4 -> (byteZ b0 = 0xF0 -> 0x90 <= byteZ b1) ->
    0x80 <= byteZ b1 <= 0xBF -> 0x80 <= byteZ b2 <= 0xBF ->
    0x80 <= byteZ b3 <= 0xBF ->
    decoded b0 r (value4 (byteZ b0) (byteZ b1) (byteZ b2) (byteZ b3)) 4.

(** The part of the output that one rune that is not ASCII contributes. *)
Definition runePiece (src : string) : string :=
  let '(c, size) := DecodeRuneInString src in
  if (c =? RuneError) && (size =? 1)%nat then String backslash "ufffd"
  else if isSeparator c then String backslash ("u202" ++ str1 (hex (Z.land c 0xF)))
  else takeS size src.

Definition asciiPiece (escapeHTML : bool) (b : ascii) : string :=
  if htmlSafeSet (byteZ b) || (negb escapeHTML && safeSet (byteZ b))
  then str1 b else escapeByte b.

(** The same for the reader's view of the string. *)
Definition coercePiece (src : string) : string :=
  let '(c, size) := DecodeRuneInString src in
  if (c =? RuneError) && (size =? 1)%nat then EncodeRune RuneError
  else takeS size src.

(** The members of the record as a reader sees them: key and value token,
    for the fields that are not omitted. *)
Definition stringValue (X : Externals) (key val : string) : list (string * token) :=
  if omitempty X key && String.eqb val "" then []
  else [(key, TString (coerceUTF8 val))].

Definition boolValue (X : Externals) (key : string) (val : bool)
  : list (string * token) :=
  if omitempty X key && negb val then []
  else [(key, if val then TTrue else TFalse)].

Definition memberValues (X : Externals) (m : Metadata) : list (string * token) :=
  stringValue X "SchemaVersion" (SchemaVersion m)
  ++ stringValue X "Vendor" (Vendor m)
  ++ stringValue X "Version" (Version m)
  ++ stringValue X "ShortDescription" (ShortDescription m)
  ++ stringValue X "URL" (URL m)
  ++ boolValue X "Experimental" (Experimental m).

Fixpoint memberTokens (kts : list (string * token)) : list token :=
  match kts with
  | [] => []
  | [kt] => [TString kt.1; TColon; kt.2]
  | kt :: rest => TString kt.1 :: TColon :: kt.2 :: TComma :: memberTokens rest
  end.

Fixpoint storeAll (kts : list (string * token)) (m : Metadata) : option Metadata :=
  match kts with
  | [] => Some m
  | kt :: rest =>
      match setField kt.1 kt.2 m with
      | Some m' => storeAll rest m'
      | None => None
      end
  end.

(** A rendered member is read as the tokens of its key and value. *)
Definition readsAs (kv : string * string) (kt : string * token) : Prop :=
  forall tail,
    lex None (renderMember kv ++ tail)
    = (fun ts => TString kt.1 :: TColon :: kt.2 :: ts) <$> lex None tail.

(** A string of ASCII bytes is read back as it is. *)
Fixpoint allASCII (s : string) : bool :=
  match s with
  | "" => true
  | String b r => (byteZ b <? 0x80) && allASCII r
  end.

(** [strings.Split(s, "\n")]. *)
Fixpoint splitLines (s : string) : list string :=
  match s with
  | "" => [""]
  | String b r =>
      if Ascii.eqb b newlineChar then "" :: splitLines r
      else match splitLines r with
           | [] => [str1 b]
           | l :: ls => String b l :: ls
           end
  end.

Fixpoint noNewline (s : string) : bool :=
  match s with
  | "" => true
  | String b r => negb (Ascii.eqb b newlineChar) && noNewline r
  end.

(** The lines of an indented object: a brace, one line per member, each
    indented by [indent] and all but the last followed by a comma, a
    brace, and the empty line after the final newline. *)
Fixpoint memberLines (indent : string) (ms : list (string * string)) : list string :=
  match ms with
  | [] => []
  | [kv] => [(indent ++ renderMember kv)%string]
  | kv :: rest => (indent ++ renderMember kv ++ ",")%string :: memberLines indent rest
  end.

Definition documentLines (indent : string) (ms : list (string * string))
  : list string :=
  match ms with
  | [] => ["{}"; ""]
  | _ => "{" :: memberLines indent ms ++ ["}"; ""]
  end.

(** [needle] occurs in [hay]. *)
Definition occursIn (needle hay : string) : Prop :=
  exists pre post, hay = (pre ++ needle ++ post)%string.

(** The string fields of a record, by name. *)
Definition stringFields (m : Metadata) : list (string * string) :=
  [("SchemaVersion", SchemaVersion m); ("Vendor", Vendor m);
   ("Version", Version m); ("ShortDescription", ShortDescription m);
   ("URL", URL m)].

(** Calls leave the command heap and the [Metadata] variables as they are
    and only add to the trace. *)
Definition extends (w w' : World) : Prop :=
  heap w' = heap w /\ metas w' = metas w /\ osArgs w' = osArgs w /\
  exists evs, trace w' = trace w ++ evs.

End Vocabulary.

(** ** Further vocabulary and instances *)

(** The executable that the bridge re-invokes: the value of the
    environment variable when it is set and not empty, "docker" otherwise
    (the first statements of the client factory). *)
Definition reexecCommand (X : Externals) (w : World) : string :=
  let x := default "" (environ w !! ReexecEnvvar X) in
  if String.eqb x "" then "docker" else x.



(** [runPlugin] with the collaborator left open: [handle tcmd] is whatever
    the call [tcmd.HandleGlobalFlags()] does and returns. *)
Definition runPluginWith (X : Externals) (handle : ptr -> M (ptr * option error))
    (plugin : ptr) (meta : Metadata) : M (option error) :=
  do tcmd <- newPluginCommand X plugin meta;
  update plugin (cobra.setPersistentPreRunE (Some (initializeHook plugin)));;
  do r <- handle tcmd;
  match r.2 with
  | Some err => ret (Some err)
  | None => Execute X r.1
  end.

(** Two records of one command that agree on everything but the parent
    and the order of the children. *)
Definition sameCommand (c c' : cobra.Command) : Prop :=
  cobra.Use c' = cobra.Use c /\ cobra.Aliases c' = cobra.Aliases c /\
  cobra.Short c' = cobra.Short c /\ cobra.Hidden c' = cobra.Hidden c /\
  cobra.PersistentPreRunE c' = cobra.PersistentPreRunE c /\
  cobra.PersistentPreRun c' = cobra.PersistentPreRun c /\
  cobra.RunE c' = cobra.RunE c /\
  cobra.commands c' ≡ₚ cobra.commands c.

(** A computation that never ends the process itself. *)
Definition neverExits {A : Type} (m : M A) : Prop :=
  forall w status, (m w).2 <> Exit status.


(** [utf8.ValidString]: no byte of the string decodes to an error of
    width 1. *)
Fixpoint validRunes (fuel : nat) (src : string) : bool :=
  match fuel with
  | O => true
  | S fuel' =>
      match src with
      | "" => true
      | String b rest =>
          if (byteZ b <? utf8.RuneSelf)%Z then validRunes fuel' rest
          else
            let '(c, size) := utf8.DecodeRuneInString src in
            if (c =? utf8.RuneError)%Z && (size =? 1)%nat then false
            else validRunes fuel' (dropS size src)
      end
  end.

Definition ValidString (s : string) : bool := validRunes (String.length s) s.

Definition validMetadata (m : Metadata) : bool :=
  ValidString (SchemaVersion m) && ValidString (Vendor m)
  && ValidString (Version m) && ValidString (ShortDescription m)
  && ValidString (URL m).

Module Scenarios.

(** The externals of the examples with chosen failures: of the CLI
    constructor, of the connection helper, of the parsing of global flags;
    author function 0 fails with a plain error, the others succeed. *)
Definition externals (cli helper flags : option error) : Externals :=
  {| ReexecEnvvar := ReexecEnvvar Examples.externals;
     NamePrefix := NamePrefix Examples.externals;
     MetadataSubcommandName := MetadataSubcommandName Examples.externals;
     omitempty := omitempty Examples.externals;
     statusErrorText := statusErrorText Examples.externals;
     NewDockerCli := fun _ => cli;
     GetCommandConnectionHelper := fun _ _ => helper;
     NewClientWithOpts := fun _ => None;
     initializeRest := fun _ => None;
     parseGlobalFlags := fun _ => flags;
     stripFlags := fun argv => argv;
     authorResult := fun id _ =>
       match id with
       | 0 => Val (Some (otherError "no such container"))
       | _ => Val None
       end |}.

Definition working : Externals := externals None None None.


(** A collaborator that rejects the global flags, and has set the client
    of the CLI by the time it reports the error. *)
Definition rejectFlags (err : error) (tcmd : ptr) : M (ptr * option error) :=
  modify (withClientReady true);; ret (tcmd, Some err).

(** A run of the plugin command with one argument of its own. *)
Definition pluginWorld (run : nat) : World :=
  Examples.world ["myplugin"; "ls"] (Examples.pluginCommand "An example" run)
    (Examples.metadata "").


(** A record with a name that is not ASCII (an e with acute accent). *)
Definition accented : Metadata :=
  {| SchemaVersion := "0.1.0";
     Vendor := String "067" (String "097" (String "102" (String "195" (String "169" ""))));
     Version := ""; ShortDescription := "Lists <things>"; URL := "";
     Experimental := true |}.

End Scenarios.

(** * Properties *)

(** ** The global flag scan *)

Lemma scanArgs_stop name flags pre post :
  name ∉ pre ->
  scanArgs name flags (pre ++ name :: post) = flags ++ pre.
Proof.
  revert flags. induction pre as [|a pre IH]; intros flags Hnot; simpl.
  - rewrite String.eqb_refl. by rewrite app_nil_r.
  - apply not_elem_of_cons in Hnot as [Hne Hnot].
    destruct (String.eqb_spec a name) as [->|_]; [done|].
    rewrite IH by done. by rewrite <- app_assoc.
Qed.

Lemma scanArgs_all name flags args :
  name ∉ args ->
  scanArgs name flags args = flags ++ args.
Proof.
  revert flags. induction args as [|a args IH]; intros flags Hnot; simpl.
  - by rewrite app_nil_r.
  - apply not_elem_of_cons in Hnot as [Hne Hnot].
    destruct (String.eqb_spec a name) as [->|_]; [done|].
    rewrite IH by done. by rewrite <- app_assoc.
Qed.

(** Every vector that holds the name splits at its first occurrence. *)
Lemma first_occurrence (name : string) (args : list string) :
  name ∈ args ->
  exists pre post, args = pre ++ name :: post /\ name ∉ pre.
Proof.
  induction args as [|a args IH]; intros Hin.
  - by apply elem_of_nil in Hin.
  - destruct (decide (a = name)) as [->|Hne].
    + exists [], args. split; [done|]. apply not_elem_of_nil.
    + apply elem_of_cons in Hin as [->|Hin]; [done|].
      destruct (IH Hin) as (pre & post & -> & Hpre).
      exists (a :: pre), post. split; [done|].
      apply not_elem_of_cons. split; [congruence|done].
Qed.

(** C1: when the plugin name occurs in the argument vector, the flags are
    the tokens strictly before its first occurrence, whatever they are (a
    flag, or the value of a flag), followed by "system" and "dial-stdio". *)
Theorem dialStdioFlags_first_occurrence (name : string) (pre post : list string) :
  name ∉ pre ->
  dialStdioFlags name (pre ++ name :: post) = pre ++ ["system"; "dial-stdio"].
Proof.
  intros Hnot. unfold dialStdioFlags. by rewrite scanArgs_stop.
Qed.

(** The example of the specification. *)
Lemma dialStdioFlags_first_occurrence_witness :
  ("myplugin" ∉ ["--config"; "/tmp/c"]) /\
  dialStdioFlags "myplugin" ["--config"; "/tmp/c"; "myplugin"; "ls"; "-a"]
  = ["--config"; "/tmp/c"; "system"; "dial-stdio"].
Proof.
  assert (H : "myplugin" ∉ ["--config"; "/tmp/c"]).
  { apply (bool_decide_unpack _). vm_compute. exact I. }
  split; [exact H|].
  exact (dialStdioFlags_first_occurrence "myplugin" ["--config"; "/tmp/c"]
           ["ls"; "-a"] H).
Defined.

(** The same, for any vector in which the name occurs. *)
Corollary dialStdioFlags_occurs (name : string) (argv : list string) :
  name ∈ argv ->
  exists pre post,
    argv = pre ++ name :: post /\ name ∉ pre /\
    dialStdioFlags name argv = pre ++ ["system"; "dial-stdio"].
Proof.
  intros Hin. destruct (first_occurrence name argv Hin) as (pre & post & -> & Hpre).
  exists pre, post. repeat split; [done|].
  unfold dialStdioFlags. by rewrite scanArgs_stop.
Qed.

(** The name as the value of an earlier flag ends the scan there. *)
Example dialStdioFlags_name_as_flag_value :
  dialStdioFlags "myplugin" ["--config"; "myplugin"; "myplugin"; "ls"]
  = ["--config"; "system"; "dial-stdio"].
Proof. reflexivity. Qed.

(** C3: when the plugin name does not occur, the scan keeps the whole
    vector: the client factory does not panic and asks for a connection
    helper with every argument followed by "system" and "dial-stdio". *)
Theorem withPluginClientConn_name_absent (X : Externals) (name prog : string)
    (argv : list string) (w : World) :
  name ∉ argv ->
  osArgs w = prog :: argv ->
  dialStdioFlags name argv = argv ++ ["system"; "dial-stdio"] /\
  exists w' r cmd,
    withPluginClientConn X name w = (w', Val r) /\
    trace w' !! length (trace w)
    = Some (EvConnectionHelper cmd (argv ++ ["system"; "dial-stdio"])).
Proof.
  intros Hnot Hargs.
  assert (Hflags : dialStdioFlags name argv = argv ++ ["system"; "dial-stdio"]).
  { unfold dialStdioFlags. by rewrite scanArgs_all. }
  split; [exact Hflags|].
  unfold withPluginClientConn, bind, Getenv, ask, argsFrom1, emit, modify, ret.
  rewrite Hargs, Hflags. cbn.
  destruct (GetCommandConnectionHelper X _ _) eqn:Hh; cbn;
    eexists _, _, _; (split; [reflexivity|]); cbn.
  - by rewrite lookup_app_r, Nat.sub_diag.
  - rewrite <- app_assoc. by rewrite lookup_app_r, Nat.sub_diag.
Qed.

Lemma withPluginClientConn_name_absent_witness :
  let w := Examples.world ["--debug"; "ls"] (Examples.pluginCommand "" 0)
             (Examples.metadata "") in
  ("myplugin" ∉ ["--debug"; "ls"]) /\
  osArgs w = "docker-myplugin" :: ["--debug"; "ls"] /\
  dialStdioFlags "myplugin" ["--debug"; "ls"]
  = ["--debug"; "ls"; "system"; "dial-stdio"].
Proof.
  intros w.
  assert (H : "myplugin" ∉ ["--debug"; "ls"]).
  { apply (bool_decide_unpack _). vm_compute. exact I. }
  split; [exact H|]. split; [reflexivity|].
  exact (proj1 (withPluginClientConn_name_absent Examples.externals "myplugin"
                  "docker-myplugin" ["--debug"; "ls"] w H eq_refl)).
Defined.

(** ** Stepping through a computation *)

Lemma bind_val {A B} (m : M A) (k : A -> M B) (w w' : World) (a : A) :
  m w = (w', Val a) -> bind m k w = k a w'.
Proof. intros H. unfold bind. by rewrite H. Qed.

Lemma deref_eq (p : ptr) (c : cobra.Command) (w : World) :
  heap w !! p = Some c -> deref p w = (w, Val c).
Proof. intros H. unfold deref. by rewrite H. Qed.

Lemma update_eq (p : ptr) (f : cobra.Command -> cobra.Command)
    (c : cobra.Command) (w : World) :
  heap w !! p = Some c ->
  update p f w = (withHeap (<[p := f c]> (heap w)) w, Val tt).
Proof.
  intros H. unfold update.
  by rewrite (bind_val _ _ _ _ _ (deref_eq _ _ _ H)).
Qed.

Lemma argsFrom1_eq (prog : string) (argv : list string) (w : World) :
  osArgs w = prog :: argv -> argsFrom1 w = (w, Val argv).
Proof. intros H. unfold argsFrom1. by rewrite H. Qed.

Lemma lookup_tail0 {A} (l k : list A) (a : A) (n : nat) :
  length l = n -> (l ++ a :: k) !! n = Some a.
Proof. intros <-. by rewrite lookup_app_r, Nat.sub_diag. Qed.

Lemma lookup_tail1 {A} (l k : list A) (a b : A) (n : nat) :
  length l = n -> (l ++ a :: b :: k) !! S n = Some b.
Proof.
  intros <-. rewrite lookup_app_r by lia.
  by replace (S (length l) - length l) with 1 by lia.
Qed.

Lemma insert_tail0 {A} (l k : list A) (a x : A) (n : nat) :
  length l = n -> <[n := x]> (l ++ a :: k) = l ++ x :: k.
Proof. intros <-. by rewrite insert_app_r_alt, Nat.sub_diag. Qed.

Lemma insert_tail1 {A} (l k : list A) (a b x : A) (n : nat) :
  length l = n -> <[S n := x]> (l ++ a :: b :: k) = l ++ a :: x :: k.
Proof.
  intros <-. rewrite insert_app_r_alt by lia.
  by replace (S (length l) - length l) with 1 by lia.
Qed.

(** ** Command assembly *)

Lemma newMetadataSubcommand_eq X plugin pc meta w :
  heap w !! plugin = Some pc ->
  newMetadataSubcommand X plugin meta w
  = (withHeap (heap w ++ [metadataLiteral X (length (metas w))])
       (withMetas (metas w ++ [defaultShortDescription meta (cobra.Short pc)]) w),
     Val (length (heap w))).
Proof.
  intros Hp.
  unfold newMetadataSubcommand, bind, newMetaVar, readMeta, deref, writeMeta,
    modify, alloc, ret, defaultShortDescription.
  cbn. rewrite lookup_app_r by lia. rewrite Nat.sub_diag. cbn.
  destruct (String.eqb (ShortDescription meta) ""); cbn.
  - rewrite Hp. cbn. rewrite insert_app_r_alt by lia.
    rewrite Nat.sub_diag. reflexivity.
  - reflexivity.
Qed.

Lemma newPluginCommand_eq X plugin pc meta w :
  heap w !! plugin = Some pc ->
  newPluginCommand X plugin meta w
  = (assembled X plugin pc meta w, Val (length (heap w))).
Proof.
  intros Hp. pose proof (lookup_lt_Some _ _ _ Hp) as Hlt.
  unfold assembled, treeHeap, adopted.
  set (n := length (heap w)) in *.
  set (pc1 := cobra.setParent (Some n) pc).
  assert (Hlen : length (<[plugin := pc1]> (heap w)) = n) by apply length_insert.
  unfold newPluginCommand.
  rewrite (bind_val _ _ _ _ _ (deref_eq _ _ _ Hp)).
  erewrite bind_val by reflexivity.
  erewrite bind_val by reflexivity.
  erewrite bind_val; cycle 1.
  { apply newMetadataSubcommand_eq with (pc := pc). cbn. by rewrite lookup_app_l. }
  cbn [heap withHeap metas withMetas].
  rewrite length_app. cbn [length]. rewrite Nat.add_1_r. fold n.
  rewrite <- app_assoc. cbn [app].
  cbn [AddCommand].
  replace (plugin =? n)%nat with false by (symmetry; apply Nat.eqb_neq; lia).
  replace (S n =? n)%nat with false by (symmetry; apply Nat.eqb_neq; lia).
  erewrite bind_val; cycle 1.
  { erewrite bind_val; cycle 1.
    { apply update_eq. cbn [heap withHeap].
      rewrite lookup_app_l by (fold n; lia). exact Hp. }
    erewrite bind_val; cycle 1.
    { apply update_eq. cbn [heap withHeap].
      rewrite insert_app_l by (fold n; lia). fold pc1.
      apply lookup_tail0. exact Hlen. }
    cbn [heap withHeap].
    rewrite (insert_app_l _ _ plugin) by (fold n; lia). fold pc1.
    rewrite (insert_tail0 _ _ _ _ n Hlen).
    erewrite bind_val; cycle 1.
    { apply update_eq. cbn [heap withHeap]. apply lookup_tail1. exact Hlen. }
    cbn [heap withHeap]. rewrite (insert_tail1 _ _ _ _ _ n Hlen).
    erewrite bind_val; cycle 1.
    { apply update_eq. cbn [heap withHeap]. apply lookup_tail0. exact Hlen. }
    cbn [heap withHeap]. rewrite (insert_tail0 _ _ _ _ n Hlen).
    reflexivity. }
  reflexivity.
Qed.

(** The three commands of the tree, where they are. *)
Lemma treeHeap_plugin X h plugin pc pcNow v :
  plugin < length h -> treeHeap X h plugin pc pcNow v !! plugin = Some pcNow.
Proof.
  intros Hlt. unfold treeHeap.
  rewrite lookup_app_l by (rewrite length_insert; lia).
  by apply list_lookup_insert_eq.
Qed.

Lemma treeHeap_root X h plugin pc pcNow v :
  treeHeap X h plugin pc pcNow v !! length h
  = Some (cobra.addChild (S (length h))
            (cobra.addChild plugin
               (rootLiteral (cobra.Name pc) (NamePrefix X ++ cobra.Name pc)%string))).
Proof. unfold treeHeap. apply lookup_tail0, length_insert. Qed.

Lemma treeHeap_metadata X h plugin pc pcNow v :
  treeHeap X h plugin pc pcNow v !! S (length h)
  = Some (cobra.setParent (Some (length h)) (metadataLiteral X v)).
Proof. unfold treeHeap. apply lookup_tail1, length_insert. Qed.

Lemma treeHeap_length X h plugin pc pcNow v :
  length (treeHeap X h plugin pc pcNow v) = S (S (length h)).
Proof. unfold treeHeap. rewrite length_app, length_insert. cbn. lia. Qed.

Lemma treeHeap_insert X h plugin pc pcNow pcNew v :
  plugin < length h ->
  <[plugin := pcNew]> (treeHeap X h plugin pc pcNow v)
  = treeHeap X h plugin pc pcNew v.
Proof.
  intros Hlt. unfold treeHeap.
  rewrite insert_app_l by (rewrite length_insert; lia).
  by rewrite list_insert_insert_eq.
Qed.

(** [runPlugin] up to the point where the tree stands and the hook is in
    place. *)
Lemma runPlugin_eq X plugin pc meta w :
  heap w !! plugin = Some pc ->
  runPlugin X plugin meta w
  = (do r <- HandleGlobalFlags X (length (heap w));
     match r.2 with
     | Some err => ret (Some err)
     | None => Execute X r.1
     end) (ready X plugin pc meta w).
Proof.
  intros Hp. pose proof (lookup_lt_Some _ _ _ Hp) as Hlt.
  unfold runPlugin.
  rewrite (bind_val _ _ _ _ _ (newPluginCommand_eq X _ _ meta _ Hp)).
  erewrite bind_val; cycle 1.
  { apply update_eq. unfold assembled. cbn [heap withHeap].
    by apply treeHeap_plugin. }
  unfold assembled, ready. cbn [heap withHeap metas withMetas].
  by rewrite treeHeap_insert.
Qed.

(** ** What running a stored function can change *)

Lemma extends_refl w : extends w w.
Proof. repeat split. exists []. by rewrite app_nil_r. Qed.

Lemma extends_trans w1 w2 w3 : extends w1 w2 -> extends w2 w3 -> extends w1 w3.
Proof.
  intros (H1 & H2 & H3 & evs & H4) (H1' & H2' & H3' & evs' & H4').
  repeat split; try congruence.
  exists (evs ++ evs'). rewrite H4', H4. by rewrite app_assoc.
Qed.

Lemma extends_emit e w : extends w (withTrace (trace w ++ [e]) w).
Proof. repeat split. by exists [e]. Qed.

Lemma withPluginClientConn_extends X name w :
  extends w (withPluginClientConn X name w).1.
Proof.
  unfold withPluginClientConn, bind, Getenv, ask, argsFrom1, emit, modify, ret.
  cbn. destruct (osArgs w) as [|prog argv] eqn:Hargs; cbn.
  - apply extends_refl.
  - destruct (GetCommandConnectionHelper X _ _); cbn.
    + repeat split; cbn; try done. by eexists [_].
    + repeat split; cbn; try done. rewrite <- app_assoc. by eexists [_; _].
Qed.

Lemma Initialize_extends X name w :
  extends w (Initialize X (withPluginClientConn X name) w).1.
Proof.
  pose proof (withPluginClientConn_extends X name w) as H.
  unfold Initialize, bind.
  destruct (withPluginClientConn X name w) as [w1 [[e|]| | |]]; cbn in *;
    try done.
  all: destruct H as (H1 & H2 & H3 & evs & H4); repeat split; cbn; try done.
  all: by exists evs.
Qed.

Lemma call_extends X f w : extends w (call X f w).1.
Proof.
  destruct f as [plugin|v|id]; cbn [call].
  - unfold bind, deref. destruct (heap w !! plugin) as [p|]; cbn.
    + apply Initialize_extends.
    + apply extends_refl.
  - unfold bind, readMeta, Encode. destruct (metas w !! v) as [m|]; cbn.
    + destruct (stdoutFault w); cbn; [apply extends_refl|].
      repeat split; cbn. exists []. by rewrite app_nil_r.
    + apply extends_refl.
  - unfold bind, emit, modify, ask. cbn. apply extends_emit.
Qed.

Lemma bind_extends {A B} (m : M A) (k : A -> M B) w :
  extends w (m w).1 ->
  (forall a w1, extends w1 (k a w1).1) ->
  extends w (bind m k w).1.
Proof.
  intros Hm Hk. unfold bind. destruct (m w) as [w1 [a| | |]]; cbn in *; try done.
  eapply extends_trans; [exact Hm|apply Hk].
Qed.

Lemma Execute_extends X root w : extends w (Execute X root w).1.
Proof.
  unfold Execute.
  apply bind_extends.
  { unfold argsFrom1. destruct (osArgs w); apply extends_refl. }
  intros argv w1. apply bind_extends; [apply extends_refl|].
  intros h w2. apply bind_extends.
  { unfold deref. destruct (heap w2 !! _); apply extends_refl. }
  intros c w3. destruct (cobra.RunE c) as [run|].
  - destruct (cobra.persistentPreRun _ _ _) as [hook|]; [|apply extends_refl].
    apply bind_extends.
    + destruct hook as [f|f|]; [apply call_extends| |apply extends_refl].
      apply bind_extends; [apply call_extends|]. intros; apply extends_refl.
    + intros [e|] w4; [apply extends_refl|apply call_extends].
  - apply bind_extends; [apply extends_emit|]. intros; apply extends_refl.
Qed.

Lemma runPlugin_tail_extends X root w :
  extends w ((do r <- HandleGlobalFlags X root;
              match r.2 with
              | Some err => ret (Some err)
              | None => Execute X r.1
              end) w).1.
Proof.
  apply bind_extends.
  - unfold HandleGlobalFlags. apply bind_extends.
    + unfold argsFrom1. destruct (osArgs w); apply extends_refl.
    + intros; apply extends_refl.
  - intros [c [e|]] w1; cbn; [apply extends_refl|apply Execute_extends].
Qed.

(** ** Dispatch on the assembled tree *)

Lemma answersTo_hooked word h plugin pc :
  cobra.answersTo word (hooked h plugin pc) = cobra.answersTo word pc.
Proof. reflexivity. Qed.

Lemma answersTo_metadata X :
  oneWordName X ->
  forall v, cobra.answersTo (MetadataSubcommandName X) (metadataLiteral X v) = true.
Proof.
  intros Hname v. unfold cobra.answersTo, cobra.Name. cbn.
  unfold oneWordName in Hname. by rewrite Hname, String.eqb_refl.
Qed.

Section Dispatch.

Context (X : Externals) (plugin : ptr) (pc : cobra.Command) (meta : Metadata).
Context (w : World) (prog : string) (argv : list string).

Hypothesis Hplugin : heap w !! plugin = Some pc.
Hypothesis Hargs : osArgs w = prog :: argv.

Let n := length (heap w).
Let v := length (metas w).
Let H := treeHeap X (heap w) plugin pc (hooked (heap w) plugin pc) v.

Lemma heap_ready : heap (ready X plugin pc meta w) = H.
Proof. reflexivity. Qed.

(** The words select the metadata command. *)
Lemma Find_metadata word rest :
  stripFlags X argv = word :: rest ->
  cobra.answersTo word pc = false ->
  cobra.answersTo word (metadataLiteral X v) = true ->
  (cobra.Find H n (stripFlags X argv)).1 = S n.
Proof using Hplugin.
  intros Hwords Hother Hmd.
  pose proof (lookup_lt_Some _ _ _ Hplugin) as Hlt.
  rewrite Hwords. subst H n. cbn [cobra.Find].
  rewrite treeHeap_root. cbn [cobra.commands cobra.addChild rootLiteral app].
  cbn [cobra.findNext].
  rewrite treeHeap_plugin by done. rewrite answersTo_hooked, Hother.
  rewrite treeHeap_metadata.
  change (cobra.answersTo word (cobra.setParent _ (metadataLiteral X v)))
    with (cobra.answersTo word (metadataLiteral X v)).
  rewrite Hmd.
  destruct rest as [|r rs]; cbn [cobra.Find]; [done|].
  rewrite treeHeap_metadata. by cbn.
Qed.

(** The words select no command: cobra stays at the root. *)
Lemma Find_root :
  match stripFlags X argv with
  | [] => True
  | word :: _ =>
      cobra.answersTo word pc = false /\
      cobra.answersTo word (metadataLiteral X v) = false
  end ->
  (cobra.Find H n (stripFlags X argv)).1 = n.
Proof using Hplugin.
  pose proof (lookup_lt_Some _ _ _ Hplugin) as Hlt.
  destruct (stripFlags X argv) as [|word rest]; [done|].
  intros [Hother Hmd]. subst H n. cbn [cobra.Find].
  rewrite treeHeap_root. cbn [cobra.commands cobra.addChild rootLiteral app].
  cbn [cobra.findNext].
  rewrite treeHeap_plugin by done. rewrite answersTo_hooked, Hother.
  rewrite treeHeap_metadata.
  change (cobra.answersTo word (cobra.setParent _ (metadataLiteral X v)))
    with (cobra.answersTo word (metadataLiteral X v)).
  by rewrite Hmd.
Qed.

(** The word selects the plugin command, which has no subcommands. *)
Lemma Find_plugin word rest :
  stripFlags X argv = word :: rest ->
  cobra.answersTo word pc = true ->
  cobra.commands pc = [] ->
  (cobra.Find H n (stripFlags X argv)).1 = plugin.
Proof using Hplugin.
  intros Hwords Hsel Hleaf.
  pose proof (lookup_lt_Some _ _ _ Hplugin) as Hlt.
  rewrite Hwords. subst H n. cbn [cobra.Find].
  rewrite treeHeap_root. cbn [cobra.commands cobra.addChild rootLiteral app].
  cbn [cobra.findNext].
  rewrite treeHeap_plugin by done. rewrite answersTo_hooked, Hsel.
  destruct rest as [|r rs]; cbn [cobra.Find]; [done|].
  rewrite treeHeap_plugin by done.
  change (cobra.commands (hooked (heap w) plugin pc)) with (cobra.commands pc).
  by rewrite Hleaf.
Qed.

Lemma persistentPreRun_metadata :
  cobra.persistentPreRun (S (length H)) H (Some (S n)) = Some cobra.noPreRun.
Proof.
  subst H n. rewrite treeHeap_length. cbn [cobra.persistentPreRun].
  rewrite treeHeap_metadata. cbn.
  rewrite treeHeap_root. by cbn.
Qed.

(** Whatever hook the author had put on the plugin command, the one that
    cobra finds there is the initializer. *)
Lemma persistentPreRun_plugin fuel :
  cobra.persistentPreRun (S fuel) H (Some plugin)
  = Some (cobra.preRunE (initializeHook plugin)).
Proof using Hplugin.
  pose proof (lookup_lt_Some _ _ _ Hplugin) as Hlt.
  subst H. cbn [cobra.persistentPreRun].
  rewrite treeHeap_plugin by done. by cbn.
Qed.

Lemma Execute_metadata word rest :
  stripFlags X argv = word :: rest ->
  cobra.answersTo word pc = false ->
  cobra.answersTo word (metadataLiteral X v) = true ->
  Execute X n (ready X plugin pc meta w)
  = Encode X (defaultShortDescription meta (cobra.Short pc))
      (ready X plugin pc meta w).
Proof using Hplugin Hargs.
  intros Hwords Hother Hmd. unfold Execute.
  erewrite bind_val by (apply (argsFrom1_eq prog argv); exact Hargs).
  erewrite bind_val by reflexivity.
  rewrite heap_ready.
  rewrite !(Find_metadata word rest Hwords Hother Hmd).
  erewrite bind_val; cycle 1.
  { apply deref_eq. rewrite heap_ready. apply treeHeap_metadata. }
  cbn [cobra.RunE cobra.setParent metadataLiteral].
  rewrite persistentPreRun_metadata.
  erewrite bind_val by reflexivity.
  cbn [call]. unfold readMeta, bind.
  replace (metas (ready X plugin pc meta w) !! length (metas w))
    with (Some (defaultShortDescription meta (cobra.Short pc)));
    [reflexivity|].
  unfold ready. cbn [metas withMetas]. symmetry. by apply lookup_tail0.
Qed.

Lemma Execute_root :
  match stripFlags X argv with
  | [] => True
  | word :: _ =>
      cobra.answersTo word pc = false /\
      cobra.answersTo word (metadataLiteral X v) = false
  end ->
  Execute X n (ready X plugin pc meta w)
  = (withTrace (trace w ++ [EvHelp n]) (ready X plugin pc meta w), Val None).
Proof using Hplugin Hargs.
  intros Hwords. unfold Execute.
  erewrite bind_val by (apply (argsFrom1_eq prog argv); exact Hargs).
  erewrite bind_val by reflexivity.
  rewrite heap_ready. rewrite !(Find_root Hwords).
  erewrite bind_val; cycle 1.
  { apply deref_eq. rewrite heap_ready. apply treeHeap_root. }
  reflexivity.
Qed.

Lemma Execute_plugin word rest run :
  stripFlags X argv = word :: rest ->
  cobra.answersTo word pc = true ->
  cobra.commands pc = [] ->
  cobra.RunE pc = Some run ->
  Execute X n (ready X plugin pc meta w)
  = (do err <- call X (initializeHook plugin);
     match err with
     | Some e => ret (Some e)
     | None => call X run
     end) (ready X plugin pc meta w).
Proof using Hplugin Hargs.
  intros Hwords Hsel Hleaf Hrun.
  pose proof (lookup_lt_Some _ _ _ Hplugin) as Hlt. unfold Execute.
  erewrite bind_val by (apply (argsFrom1_eq prog argv); exact Hargs).
  erewrite bind_val by reflexivity.
  rewrite heap_ready. rewrite !(Find_plugin word rest Hwords Hsel Hleaf).
  erewrite bind_val; cycle 1.
  { apply deref_eq. rewrite heap_ready. by apply treeHeap_plugin. }
  change (cobra.RunE (hooked (heap w) plugin pc)) with (cobra.RunE pc).
  rewrite Hrun. by rewrite persistentPreRun_plugin.
Qed.

Lemma runPlugin_flags_ok :
  parseGlobalFlags X argv = None ->
  runPlugin X plugin meta w = Execute X n (ready X plugin pc meta w).
Proof using Hplugin Hargs.
  intros Hflags. rewrite (runPlugin_eq X plugin pc meta w Hplugin).
  unfold HandleGlobalFlags.
  erewrite bind_val; cycle 1.
  { erewrite bind_val by (apply (argsFrom1_eq prog argv); exact Hargs).
    reflexivity. }
  cbn [fst snd]. by rewrite Hflags.
Qed.

Lemma runPlugin_flags_error err :
  parseGlobalFlags X argv = Some err ->
  runPlugin X plugin meta w = (ready X plugin pc meta w, Val (Some err)).
Proof using Hplugin Hargs.
  intros Hflags. rewrite (runPlugin_eq X plugin pc meta w Hplugin).
  unfold HandleGlobalFlags.
  erewrite bind_val; cycle 1.
  { erewrite bind_val by (apply (argsFrom1_eq prog argv); exact Hargs).
    reflexivity. }
  cbn [fst snd]. by rewrite Hflags.
Qed.

End Dispatch.

(** A metadata query writes the encoded record and does nothing else. *)
Lemma runPlugin_metadataQuery X plugin pc meta w :
  oneWordName X ->
  metadataQuery X plugin pc w ->
  runPlugin X plugin meta w
  = (withStdout
       (osStdout w ++ metadataBytes X (defaultShortDescription meta (cobra.Short pc)))
       (ready X plugin pc meta w),
     Val None).
Proof.
  intros Hname (prog & argv & rest & Hp & Hargs & Hflags & Hwords & Hother & Hout).
  rewrite (runPlugin_flags_ok X plugin pc meta w prog argv Hp Hargs Hflags).
  rewrite (Execute_metadata X plugin pc meta w prog argv Hp Hargs _ rest Hwords Hother
             (answersTo_metadata X Hname _)).
  unfold Encode. unfold ready at 1. cbn [stdoutFault withHeap withMetas].
  rewrite Hout. reflexivity.
Qed.

(** ** The connection bridge and the metadata query *)

(** C2: the bridge runs only for the plugin's own command.  Whenever the
    first command word does not select the plugin command, [runPlugin]
    returns without any event of the bridge and leaves the client unset;
    and a metadata query succeeds, writing the encoded record, without any
    event at all: nothing is asked of [GetCommandConnectionHelper] or
    [NewClientWithOpts], which may fail as they like. *)
Theorem bridge_only_for_plugin_command (X : Externals) (plugin : ptr)
    (pc : cobra.Command) (meta : Metadata) (w : World) (prog : string)
    (argv : list string) :
  heap w !! plugin = Some pc ->
  osArgs w = prog :: argv ->
  (selectsPlugin X pc argv = false ->
   exists w' r evs,
     runPlugin X plugin meta w = (w', Val r) /\
     trace w' = trace w ++ evs /\ bridgeFree evs = true /\
     clientReady w' = clientReady w) /\
  (oneWordName X -> metadataQuery X plugin pc w ->
   exists w',
     runPlugin X plugin meta w = (w', Val None) /\
     trace w' = trace w /\ clientReady w' = clientReady w /\
     osStdout w'
     = (osStdout w
        ++ metadataBytes X (defaultShortDescription meta (cobra.Short pc)))%string).
Proof.
  intros Hp Hargs. split.
  - intros Hsel.
    destruct (parseGlobalFlags X argv) as [err|] eqn:Hflags.
    { rewrite (runPlugin_flags_error X plugin pc meta w prog argv Hp Hargs err Hflags).
      eexists _, _, []. by rewrite app_nil_r. }
    rewrite (runPlugin_flags_ok X plugin pc meta w prog argv Hp Hargs Hflags).
    unfold selectsPlugin in Hsel.
    destruct (stripFlags X argv) as [|word rest] eqn:Hwords.
    { rewrite (Execute_root X plugin pc meta w prog argv Hp Hargs)
        by (by rewrite Hwords).
      by eexists _, _, [_]. }
    destruct (cobra.answersTo word (metadataLiteral X (length (metas w))))
      eqn:Hmd.
    + rewrite (Execute_metadata X plugin pc meta w prog argv Hp Hargs
                 word rest Hwords Hsel Hmd).
      unfold Encode. destruct (stdoutFault _); eexists _, _, [];
        by rewrite app_nil_r.
    + rewrite (Execute_root X plugin pc meta w prog argv Hp Hargs)
        by (by rewrite Hwords).
      by eexists _, _, [_].
  - intros Hname Hq.
    rewrite (runPlugin_metadataQuery X plugin pc meta w Hname Hq).
    by eexists.
Qed.

Lemma metadataQuery_example short meta :
  metadataQuery Examples.externals 0 (Examples.pluginCommand short 0)
    (Examples.queryWorld short meta).
Proof. by exists "docker-myplugin", ["docker-cli-plugin-metadata"], []. Qed.

Lemma bridge_only_for_plugin_command_witness :
  let meta := Examples.metadata "" in
  let w := Examples.queryWorld "An example" meta in
  exists w',
    runPlugin Examples.externals 0 meta w = (w', Val None) /\
    trace w' = [] /\ clientReady w' = false /\
    osStdout w'
    = metadataBytes Examples.externals
        (defaultShortDescription meta "An example").
Proof.
  intros meta w.
  refine (proj2 (bridge_only_for_plugin_command Examples.externals 0
                   (Examples.pluginCommand "An example" 0) meta w
                   "docker-myplugin" ["docker-cli-plugin-metadata"]
                   eq_refl eq_refl) eq_refl _).
  exists "docker-myplugin", ["docker-cli-plugin-metadata"], [].
  repeat split; reflexivity.
Defined.

(** When the word selects the plugin command, the first thing that happens
    is the bridge, called with the scanned flags. *)
Lemma plugin_command_runs_bridge (X : Externals) (plugin : ptr)
    (pc : cobra.Command) (meta : Metadata) (w : World) (prog word : string)
    (argv rest : list string) (run : Func) :
  heap w !! plugin = Some pc ->
  osArgs w = prog :: argv ->
  parseGlobalFlags X argv = None ->
  stripFlags X argv = word :: rest ->
  cobra.answersTo word pc = true ->
  cobra.commands pc = [] ->
  cobra.RunE pc = Some run ->
  exists cmd,
    trace (runPlugin X plugin meta w).1 !! length (trace w)
    = Some (EvConnectionHelper cmd (dialStdioFlags (cobra.Name pc) argv)).
Proof.
  intros Hp Hargs Hflags Hwords Hsel Hleaf Hrun.
  pose proof (lookup_lt_Some _ _ _ Hp) as Hlt.
  rewrite (runPlugin_flags_ok X plugin pc meta w prog argv Hp Hargs Hflags).
  rewrite (Execute_plugin X plugin pc meta w prog argv Hp Hargs word rest run
             Hwords Hsel Hleaf Hrun).
  set (w0 := ready X plugin pc meta w).
  assert (Hinit : exists cmd w1 r,
             call X (initializeHook plugin) w0 = (w1, r) /\
             trace w1 !! length (trace w)
             = Some (EvConnectionHelper cmd (dialStdioFlags (cobra.Name pc) argv))).
  { cbn [call]. erewrite bind_val; cycle 1.
    { apply deref_eq. subst w0. rewrite heap_ready. by apply treeHeap_plugin. }
    change (cobra.Name (hooked (heap w) plugin pc)) with (cobra.Name pc).
    unfold Initialize, withPluginClientConn, bind, Getenv, ask, argsFrom1,
      emit, modify, ret.
    change (osArgs w0) with (osArgs w). rewrite Hargs. cbn.
    destruct (GetCommandConnectionHelper X _ _); cbn.
    - eexists _, _, _. split; [reflexivity|]. cbn. by apply lookup_tail0.
    - destruct (NewClientWithOpts X _); cbn;
        eexists _, _, _; (split; [reflexivity|]); cbn;
        rewrite <- app_assoc; by apply lookup_tail0. }
  destruct Hinit as (cmd & w1 & r & Hcall & Hev). exists cmd.
  unfold bind. rewrite Hcall.
  destruct r as [[e|]| | |]; cbn; try exact Hev.
  destruct (call_extends X run w1) as (_ & _ & _ & evs & Htr).
  rewrite Htr. rewrite lookup_app_l; [exact Hev|].
  by apply lookup_lt_Some in Hev.
Qed.

(** C10: whatever [PersistentPreRunE] the plugin command came with,
    [runPlugin] leaves the deferred client initializer in that field: the
    record that results does not depend on the former hook, and it is the
    initializer that cobra finds when it looks for the hook to run. *)
Theorem runPlugin_overwrites_PersistentPreRunE (X : Externals) (plugin : ptr)
    (pc : cobra.Command) (meta : Metadata) (w : World) :
  heap w !! plugin = Some pc ->
  let w' := (runPlugin X plugin meta w).1 in
  heap w' !! plugin = Some (hooked (heap w) plugin pc) /\
  cobra.PersistentPreRunE (hooked (heap w) plugin pc)
  = Some (initializeHook plugin) /\
  (forall f, hooked (heap w) plugin (cobra.setPersistentPreRunE f pc)
             = hooked (heap w) plugin pc) /\
  (forall fuel, cobra.persistentPreRun (S fuel) (heap w') (Some plugin)
                = Some (cobra.preRunE (initializeHook plugin))).
Proof.
  intros Hp w'. pose proof (lookup_lt_Some _ _ _ Hp) as Hlt.
  assert (Hheap : heap w' = treeHeap X (heap w) plugin pc
                              (hooked (heap w) plugin pc) (length (metas w))).
  { subst w'. rewrite (runPlugin_eq X plugin pc meta w Hp).
    destruct (runPlugin_tail_extends X (length (heap w))
                (ready X plugin pc meta w)) as (Hh & _).
    rewrite Hh. reflexivity. }
  rewrite Hheap. repeat split.
  - by apply treeHeap_plugin.
  - intros fuel. by apply persistentPreRun_plugin.
Qed.

Lemma runPlugin_overwrites_PersistentPreRunE_witness :
  let pc := Examples.pluginCommand "An example" 0 in
  let w := Examples.failingWorld 0 in
  let w' := (runPlugin Examples.externals 0 (Examples.metadata "") w).1 in
  cobra.PersistentPreRunE pc = Some (authorFunc 7) /\
  heap w' !! 0 = Some (hooked (heap w) 0 pc) /\
  cobra.PersistentPreRunE (hooked (heap w) 0 pc) = Some (initializeHook 0).
Proof.
  intros pc w w'. split; [reflexivity|].
  pose proof (runPlugin_overwrites_PersistentPreRunE Examples.externals 0 pc
                (Examples.metadata "") w eq_refl) as (H1 & H2 & _).
  split; [exact H1|exact H2].
Defined.

(** In that run the author's hook (function 7) never runs. *)
Example author_hook_not_run :
  trace (runPlugin Examples.externals 0 (Examples.metadata "")
           (Examples.failingWorld 0)).1
  = [EvConnectionHelper "docker" ["system"; "dial-stdio"]; EvNewClient;
     EvAuthor 0].
Proof. reflexivity. Qed.

(** C9: the record the caller holds is not written to.  Whatever variable
    [a] holds the record passed to [runPlugin], it holds the same record
    when [runPlugin] is over, whichever command ran; the record with the
    default short description lives in a variable of its own. *)
Theorem runPlugin_keeps_caller_metadata (X : Externals) (plugin a : ptr)
    (meta : Metadata) (w : World) :
  metas w !! a = Some meta ->
  let w' := (runPlugin X plugin meta w).1 in
  metas w' !! a = Some meta /\
  metas (newPluginCommand X plugin meta w).1 !! a = Some meta /\
  (forall pc, heap w !! plugin = Some pc ->
     metas w' !! length (metas w)
     = Some (defaultShortDescription meta (cobra.Short pc))).
Proof.
  intros Ha w'. pose proof (lookup_lt_Some _ _ _ Ha) as Hlt.
  destruct (heap w !! plugin) as [pc|] eqn:Hp.
  - assert (Hm : metas w' = metas w ++ [defaultShortDescription meta (cobra.Short pc)]).
    { subst w'. rewrite (runPlugin_eq X plugin pc meta w Hp).
      destruct (runPlugin_tail_extends X (length (heap w))
                  (ready X plugin pc meta w)) as (_ & Hm & _).
      rewrite Hm. reflexivity. }
    rewrite Hm. split; [by rewrite lookup_app_l|]. split.
    + rewrite (newPluginCommand_eq X plugin pc meta w Hp). cbn.
      by rewrite lookup_app_l.
    + intros pc' [= <-]. by apply lookup_tail0.
  - assert (Hnil : newPluginCommand X plugin meta w
                   = (w, Panic "nil pointer dereference")).
    { unfold newPluginCommand, bind, deref. by rewrite Hp. }
    subst w'. unfold runPlugin, bind. rewrite Hnil. cbn. done.
Qed.

Lemma runPlugin_keeps_caller_metadata_witness :
  let meta := Examples.metadata "" in
  let w := Examples.queryWorld "An example" meta in
  let w' := (runPlugin Examples.externals 0 meta w).1 in
  metas w !! 0 = Some meta /\
  metas w' !! 0 = Some meta /\
  metas w' !! 1 = Some (Examples.metadata "An example").
Proof.
  intros meta w w'. split; [reflexivity|].
  pose proof (runPlugin_keeps_caller_metadata Examples.externals 0 0 meta w
                eq_refl) as (H1 & _ & H3).
  split; [exact H1|]. exact (H3 _ eq_refl).
Defined.

(** C8: the bytes a metadata query writes are a function of the record and
    of the plugin command alone: two queries, in whatever state of the
    process (arguments after the subcommand, environment, earlier output,
    heap), write the same bytes and return the same result. *)
Theorem metadata_output_deterministic (X : Externals) (plugin1 plugin2 : ptr)
    (pc : cobra.Command) (meta : Metadata) (w1 w2 : World) :
  oneWordName X ->
  metadataQuery X plugin1 pc w1 ->
  metadataQuery X plugin2 pc w2 ->
  exists out,
    osStdout (runPlugin X plugin1 meta w1).1 = (osStdout w1 ++ out)%string /\
    osStdout (runPlugin X plugin2 meta w2).1 = (osStdout w2 ++ out)%string /\
    (runPlugin X plugin1 meta w1).2 = (runPlugin X plugin2 meta w2).2.
Proof.
  intros Hname Hq1 Hq2.
  rewrite (runPlugin_metadataQuery X plugin1 pc meta w1 Hname Hq1).
  rewrite (runPlugin_metadataQuery X plugin2 pc meta w2 Hname Hq2).
  by eexists.
Qed.

(** ** The exit status *)

Lemma Run_status (X : Externals) (makeCmd : M ptr) (meta : Metadata)
    (w w1 w2 : World) (plugin : ptr) (status : string) (code : Z) :
  NewDockerCli X w = None ->
  makeCmd w = (w1, Val plugin) ->
  runPlugin X plugin meta w1 = (w2, Val (Some (StatusError status code))) ->
  Run X makeCmd meta w
  = ((if String.eqb status "" then w2
      else withCliErr (cliErr w2 ++ status ++ str1 newlineChar) w2),
     Exit (statusExitCode code)).
Proof.
  intros Hcli Hmk Hrun.
  unfold Run, bind, ask, statusExitCode. rewrite Hcli. cbn. rewrite Hmk, Hrun. cbn.
  destruct (String.eqb status ""); cbn; destruct (code =? 0)%Z; reflexivity.
Qed.

(** C4: on a structured failure [Run] ends the process with [os.Exit(1)]
    when the carried code is 0 and with [os.Exit(code)] otherwise, and looks
    no further at the code.  The exit status is then the carried code for
    the codes 1 to 255 and 1 for the code 0, but in general the low 8 bits
    of the code: it is 0, against the comment at the call, exactly for the
    non-zero multiples of 256. *)
Theorem Run_status_exit_code (X : Externals) (makeCmd : M ptr) (meta : Metadata)
    (w w1 w2 : World) (plugin : ptr) (status : string) (code : Z) :
  NewDockerCli X w = None ->
  makeCmd w = (w1, Val plugin) ->
  runPlugin X plugin meta w1 = (w2, Val (Some (StatusError status code))) ->
  exists w3 exitCode,
    Run X makeCmd meta w = (w3, Exit exitCode) /\
    exitCode = (if (code =? 0)%Z then 1 else code mod 256)%Z /\
    (0 <= exitCode < 256)%Z /\
    (1 <= code <= 255 -> exitCode = code)%Z /\
    (exitCode = 0 <-> code <> 0 /\ code mod 256 = 0)%Z.
Proof.
  intros Hcli Hmk Hrun.
  eexists _, _. split; [exact (Run_status X _ _ _ _ _ _ _ _ Hcli Hmk Hrun)|].
  unfold statusExitCode, exitStatus. split; [reflexivity|].
  pose proof (Z.mod_pos_bound code 256 eq_refl) as Hmod.
  destruct (Z.eqb_spec code 0) as [->|Hne].
  - repeat split; lia.
  - split; [lia|]. split.
    + intros Hcode. by rewrite Z.mod_small by lia.
    + split; [by intros ->|by intros [_ ->]].
Qed.

(** A failure with the code 256 ends the process with status 0. *)
Lemma Run_status_exit_code_witness :
  let meta := Examples.metadata "" in
  let w := Examples.failingWorld 3 in
  (runPlugin Examples.externals 0 meta w).2
  = Val (Some (StatusError "no such image" 256)) /\
  exists w3, Run Examples.externals (ret 0) meta w = (w3, Exit 0).
Proof.
  intros meta w. split; [vm_compute; reflexivity|].
  destruct (Run_status_exit_code Examples.externals (ret 0) meta w w
              (runPlugin Examples.externals 0 meta w).1 0 "no such image" 256%Z)
    as (w3 & exitCode & Hrun & Hcode & _).
  - reflexivity.
  - reflexivity.
  - vm_compute. reflexivity.
  - exists w3. rewrite Hrun, Hcode. reflexivity.
Defined.

(** C5: on a structured failure the status message, when it is not empty,
    goes to the error stream of the CLI on a line of its own, nothing else
    is written, and the exit status is that of the carried code, or 1 when
    the code is 0. *)
Theorem Run_status_message (X : Externals) (makeCmd : M ptr) (meta : Metadata)
    (w w1 w2 : World) (plugin : ptr) (status : string) (code : Z) :
  NewDockerCli X w = None ->
  makeCmd w = (w1, Val plugin) ->
  runPlugin X plugin meta w1 = (w2, Val (Some (StatusError status code))) ->
  exists w3,
    Run X makeCmd meta w = (w3, Exit (statusExitCode code)) /\
    cliErr w3 = (if String.eqb status "" then cliErr w2
                 else cliErr w2 ++ status ++ str1 newlineChar)%string /\
    osStderr w3 = osStderr w2 /\ osStdout w3 = osStdout w2.
Proof.
  intros Hcli Hmk Hrun.
  eexists. split; [exact (Run_status X _ _ _ _ _ _ _ _ Hcli Hmk Hrun)|].
  by destruct (String.eqb status "").
Qed.

(** The failure ("M", 3) writes the line "M" and exits with 3. *)
Lemma Run_status_message_witness :
  let meta := Examples.metadata "" in
  let w := Examples.failingWorld 0 in
  let w2 := (runPlugin Examples.externals 0 meta w).1 in
  exists w3,
    Run Examples.externals (ret 0) meta w = (w3, Exit 3) /\
    cliErr w3 = String "M" (str1 newlineChar) /\
    osStderr w3 = "" /\ osStdout w3 = "".
Proof.
  intros meta w w2.
  apply (Run_status_message Examples.externals (ret 0) meta w w w2 0 "M" 3%Z).
  - reflexivity.
  - reflexivity.
  - vm_compute. reflexivity.
Defined.

(** ** Bytes *)

Lemma byteZ_range (b : ascii) : (0 <= byteZ b < 256)%Z.
Proof.
  unfold byteZ. pose proof (N_ascii_bounded b). lia.
Qed.

Lemma byteOf_byteZ (b : ascii) : byteOf (byteZ b) = b.
Proof.
  unfold byteOf, byteZ. rewrite N2Z.id. apply ascii_N_embedding.
Qed.

Lemma byteZ_inj (a b : ascii) : byteZ a = byteZ b -> a = b.
Proof. intros H. by rewrite <- (byteOf_byteZ a), H, byteOf_byteZ. Qed.

Lemma string_app_cons (b : ascii) (s t : string) :
  (String b s ++ t)%string = String b (s ++ t).
Proof. reflexivity. Qed.

Lemma string_app_nil_l (s : string) : ("" ++ s)%string = s.
Proof. reflexivity. Qed.

Lemma string_app_nil_r (s : string) : (s ++ "")%string = s.
Proof.
  induction s as [|b s IH]; [done|]. by rewrite string_app_cons, IH.
Qed.

Lemma string_app_assoc (a b c : string) :
  ((a ++ b) ++ c)%string = (a ++ (b ++ c))%string.
Proof.
  induction a as [|x a IH]; [done|]. by rewrite !string_app_cons, IH.
Qed.

Lemma length_dropS (n : nat) (s : string) :
  String.length (dropS n s) = String.length s - n.
Proof.
  revert s. induction n as [|n IH]; intros [|b r]; cbn; done.
Qed.

Lemma takeS_dropS (n : nat) (s : string) : (takeS n s ++ dropS n s)%string = s.
Proof.
  revert s. induction n as [|n IH]; intros [|b r]; cbn; try done.
  by rewrite string_app_cons, IH.
Qed.

Lemma takeS_app (n : nat) (s t : string) :
  n <= String.length s -> takeS n (s ++ t) = takeS n s.
Proof.
  revert s. induction n as [|n IH]; intros s Hn; [done|].
  destruct s as [|b r]; cbn in Hn; [lia|].
  rewrite string_app_cons. cbn. rewrite IH; [done|lia].
Qed.

Lemma dropS_app (n : nat) (s t : string) :
  n <= String.length s -> dropS n (s ++ t) = (dropS n s ++ t)%string.
Proof.
  revert s. induction n as [|n IH]; intros s Hn; [done|].
  destruct s as [|b r]; cbn in Hn; [lia|].
  rewrite string_app_cons. cbn. apply IH. lia.
Qed.

(** ** Decoding a rune *)

Section DecodeFacts.

#[local] Open Scope Z_scope.

Import utf8 json.

Lemma first_Lead (s0 : Z) (sz : nat) (lo hi : Z) :
  utf8.first s0 = utf8.Lead sz lo hi ->
  (sz = 2%nat /\ 0xC2 <= s0 <= 0xDF \/
   sz = 3%nat /\ 0xE0 <= s0 <= 0xEF \/
   sz = 4%nat /\ 0xF0 <= s0 <= 0xF4 /\ (s0 = 0xF0 -> 0x90 <= lo)) /\
  0x80 <= lo /\ hi <= 0xBF.
Proof.
  unfold utf8.first, utf8.locb, utf8.hicb.
  repeat match goal with
         | |- context [if ?c then _ else _] => destruct c eqn:?
         end; intros [= <- <- <-]; lia.
Qed.

(** The masks and shifts of the decoder, as arithmetic. *)
Lemma land_low (s : Z) (k : Z) :
  0 <= k -> Z.land s (Z.ones k) = s mod 2 ^ k.
Proof. intros. by apply Z.land_ones. Qed.

Lemma lor_shiftl_low (a b k : Z) :
  0 <= k -> 0 <= b < 2 ^ k -> Z.lor (Z.shiftl a k) b = a * 2 ^ k + b.
Proof.
  intros Hk Hb. rewrite <- Z.shiftl_mul_pow2 by done.
  symmetry. apply Z.add_nocarry_lor.
  apply Z.bits_inj_0. intros n. rewrite Z.land_spec.
  destruct (Z.ltb_spec n 0) as [Hneg|Hnn].
  { by rewrite !Z.testbit_neg_r. }
  destruct (Z.ltb_spec n k) as [Hlow|Hhigh].
  - by rewrite Z.shiftl_spec_low.
  - rewrite <- (Z.mod_small b (2 ^ k)) by done.
    rewrite Z.mod_pow2_bits_high by lia. apply andb_false_r.
Qed.

Lemma lor_shiftl6 (a b : Z) :
  0 <= b < 64 -> Z.lor (Z.shiftl a 6) b = a * 64 + b.
Proof. intros Hb. by rewrite lor_shiftl_low. Qed.

Lemma land_3F (s : Z) : Z.land s 0x3F = s mod 64.
Proof. change 0x3F with (Z.ones 6). by rewrite land_low. Qed.

Ltac mod_lia := Z.div_mod_to_equations; lia.

Lemma value2_eq s0 s1 :
  0xC2 <= s0 <= 0xDF -> 0x80 <= s1 <= 0xBF ->
  value2 s0 s1 = (s0 - 0xC0) * 64 + (s1 - 0x80).
Proof.
  intros H0 H1. unfold value2. rewrite land_3F.
  change 0x1F with (Z.ones 5). rewrite land_low by lia. change (2 ^ 5) with 32.
  rewrite lor_shiftl6 by mod_lia. mod_lia.
Qed.

Lemma value3_eq s0 s1 s2 :
  0xE0 <= s0 <= 0xEF -> 0x80 <= s1 <= 0xBF -> 0x80 <= s2 <= 0xBF ->
  value3 s0 s1 s2 = (s0 - 0xE0) * 4096 + (s1 - 0x80) * 64 + (s2 - 0x80).
Proof.
  intros H0 H1 H2. unfold value3. rewrite !land_3F.
  change 0x0F with (Z.ones 4). rewrite land_low by lia. change (2 ^ 4) with 16.
  change 12 with (6 + 6). rewrite <- Z.shiftl_shiftl by lia.
  rewrite <- Z.shiftl_lor. rewrite (lor_shiftl6 _ (s1 mod 64)) by mod_lia.
  rewrite lor_shiftl6 by mod_lia. mod_lia.
Qed.

Lemma value4_ge s0 s1 s2 s3 :
  0xF0 <= s0 <= 0xF4 -> (s0 = 0xF0 -> 0x90 <= s1) ->
  0x80 <= s1 <= 0xBF -> 0x80 <= s2 <= 0xBF -> 0x80 <= s3 <= 0xBF ->
  0x10000 <= value4 s0 s1 s2 s3.
Proof.
  intros H0 Hlo H1 H2 H3. unfold value4. rewrite !land_3F.
  change 0x07 with (Z.ones 3). rewrite land_low by lia. change (2 ^ 3) with 8.
  change 18 with (6 + 6 + 6). change 12 with (6 + 6).
  rewrite <- !Z.shiftl_shiftl by lia.
  rewrite <- !Z.shiftl_lor. rewrite (lor_shiftl6 _ (s1 mod 64)) by mod_lia.
  rewrite (lor_shiftl6 _ (s2 mod 64)) by mod_lia.
  rewrite lor_shiftl6 by mod_lia. mod_lia.
Qed.

(** A two-byte sequence never decodes to a line or paragraph separator. *)
Lemma value2_plain s0 s1 :
  0xC2 <= s0 <= 0xDF -> 0x80 <= s1 <= 0xBF -> isSeparator (value2 s0 s1) = false.
Proof.
  intros H0 H1. rewrite value2_eq by done. unfold isSeparator.
  apply orb_false_iff. split; apply Z.eqb_neq; lia.
Qed.

(** A three-byte sequence that decodes to a separator is the encoding of
    that separator. *)
Lemma value3_separator s0 s1 s2 :
  0xE0 <= s0 <= 0xEF -> 0x80 <= s1 <= 0xBF -> 0x80 <= s2 <= 0xBF ->
  isSeparator (value3 s0 s1 s2) = true ->
  s0 = 0xE2 /\ s1 = 0x80 /\
  (value3 s0 s1 s2 = 0x2028 /\ s2 = 0xA8 \/
   value3 s0 s1 s2 = 0x2029 /\ s2 = 0xA9).
Proof.
  intros H0 H1 H2. rewrite value3_eq by done. unfold isSeparator.
  intros [Hs|Hs]%orb_true_iff; apply Z.eqb_eq in Hs; lia.
Qed.

(** A four-byte sequence that is not overlong never decodes to a
    separator. *)
Lemma value4_plain s0 s1 s2 s3 :
  0xF0 <= s0 <= 0xF4 -> (s0 = 0xF0 -> 0x90 <= s1) ->
  0x80 <= s1 <= 0xBF -> 0x80 <= s2 <= 0xBF -> 0x80 <= s3 <= 0xBF ->
  isSeparator (value4 s0 s1 s2 s3) = false.
Proof.
  intros H0 Hlo H1 H2 H3.
  pose proof (value4_ge s0 s1 s2 s3 H0 Hlo H1 H2 H3) as Hge.
  unfold isSeparator. apply orb_false_iff. split; apply Z.eqb_neq; lia.
Qed.

Lemma first_AS (s0 : Z) : utf8.first s0 = utf8.AS -> s0 < 0x80.
Proof.
  unfold utf8.first.
  repeat match goal with
         | |- context [if ?c then _ else _] => destruct c eqn:?
         end; intros [=]; lia.
Qed.

Lemma DecodeRuneInString_decoded (b0 : ascii) (r : string) :
  0x80 <= byteZ b0 ->
  decoded b0 r (DecodeRuneInString (String b0 r)).1
               (DecodeRuneInString (String b0 r)).2.
Proof.
  intros Hb0. unfold DecodeRuneInString.
  change (String.length (String b0 r)) with (S (String.length r)).
  change (byteAt (String b0 r) 0) with (byteZ b0).
  cbn [Nat.ltb Nat.leb].
  destruct (first (byteZ b0)) as [| |sz lo hi] eqn:Hf.
  - apply first_AS in Hf. lia.
  - constructor.
  - apply first_Lead in Hf as (Hsz & Hlo & Hhi).
    unfold locb, hicb.
    destruct r as [|b1 r1].
    { destruct Hsz as [[-> _]|[[-> _]|[-> _]]]; cbn; constructor. }
    change (byteAt (String b0 (String b1 r1)) 1) with (byteZ b1).
    destruct Hsz as [[-> H0]|[[-> H0]|(-> & H0 & Hf0)]].
    + cbn [Nat.ltb Nat.leb String.length].
      destruct (Z.ltb_spec (byteZ b1) lo); cbn [orb fst snd]; [constructor|].
      destruct (Z.ltb_spec hi (byteZ b1)); cbn [orb fst snd]; [constructor|].
      eapply decoded2; [reflexivity|lia|lia].
    + destruct r1 as [|b2 r2]; [cbn; constructor|].
      change (byteAt (String b0 (String b1 (String b2 r2))) 2) with (byteZ b2).
      cbn [Nat.ltb Nat.leb String.length].
      destruct (Z.ltb_spec (byteZ b1) lo); cbn [orb fst snd]; [constructor|].
      destruct (Z.ltb_spec hi (byteZ b1)); cbn [orb fst snd]; [constructor|].
      destruct (Z.ltb_spec (byteZ b2) 0x80); cbn [orb fst snd]; [constructor|].
      destruct (Z.ltb_spec 0xBF (byteZ b2)); cbn [orb fst snd]; [constructor|].
      eapply decoded3; [reflexivity|lia..].
    + destruct r1 as [|b2 r2]; [cbn; constructor|].
      destruct r2 as [|b3 r3]; [cbn; constructor|].
      change (byteAt (String b0 (String b1 (String b2 (String b3 r3)))) 2)
        with (byteZ b2).
      change (byteAt (String b0 (String b1 (String b2 (String b3 r3)))) 3)
        with (byteZ b3).
      cbn [Nat.ltb Nat.leb String.length].
      destruct (Z.ltb_spec (byteZ b1) lo); cbn [orb fst snd]; [constructor|].
      destruct (Z.ltb_spec hi (byteZ b1)); cbn [orb fst snd]; [constructor|].
      destruct (Z.ltb_spec (byteZ b2) 0x80); cbn [orb fst snd]; [constructor|].
      destruct (Z.ltb_spec 0xBF (byteZ b2)); cbn [orb fst snd]; [constructor|].
      destruct (Z.ltb_spec (byteZ b3) 0x80); cbn [orb fst snd]; [constructor|].
      destruct (Z.ltb_spec 0xBF (byteZ b3)); cbn [orb fst snd]; [constructor|].
      eapply decoded4; [reflexivity|lia..].
Qed.

End DecodeFacts.

(** ** The string encoder, one rune at a time *)

Section EncoderLoop.

Import utf8 json.
#[local] Open Scope Z_scope.

Lemma decoded_size b0 r c size :
  decoded b0 r c size -> (1 <= size <= 4)%nat /\ (size <= S (String.length r))%nat.
Proof. intros [| ? ? -> | ? ? ? -> | ? ? ? ? ->]; cbn; lia. Qed.

Lemma appendRunes_step eh fuel b r :
  appendRunes eh (S fuel) (String b r)
  = if byteZ b <? RuneSelf
    then (asciiPiece eh b ++ appendRunes eh fuel r)%string
    else (runePiece (String b r)
          ++ appendRunes eh fuel
               (dropS (DecodeRuneInString (String b r)).2 (String b r)))%string.
Proof.
  cbn [appendRunes]. unfold asciiPiece, runePiece.
  destruct (byteZ b <? RuneSelf); [by destruct (_ || _)|].
  destruct (DecodeRuneInString (String b r)) as [c size]. cbn [snd].
  destruct ((c =? RuneError) && (size =? 1)%nat); [done|].
  by destruct (isSeparator c).
Qed.

Lemma appendRunes_fuel eh fuel fuel' s :
  (String.length s <= fuel)%nat -> (String.length s <= fuel')%nat ->
  appendRunes eh fuel s = appendRunes eh fuel' s.
Proof.
  revert fuel' s. induction fuel as [|fuel IH]; intros fuel' s Hf Hf'.
  { destruct s; [by destruct fuel'|cbn in Hf; lia]. }
  destruct s as [|b r]; [by destruct fuel'|].
  destruct fuel' as [|fuel']; [cbn in Hf'; lia|].
  cbn [String.length] in Hf, Hf'. rewrite !appendRunes_step.
  destruct (Z.ltb_spec (byteZ b) RuneSelf) as [Hlt|Hge].
  - f_equal. apply IH; lia.
  - f_equal. pose proof (DecodeRuneInString_decoded b r Hge) as Hd.
    apply decoded_size in Hd as [Hsz _].
    apply IH; rewrite length_dropS; cbn [String.length]; lia.
Qed.

Lemma appendBody_nil eh : appendBody eh "" = "".
Proof. reflexivity. Qed.

Lemma appendBody_ascii eh b r :
  byteZ b < 0x80 ->
  appendBody eh (String b r) = (asciiPiece eh b ++ appendBody eh r)%string.
Proof.
  intros Hb. unfold appendBody. cbn [String.length]. rewrite appendRunes_step.
  by destruct (Z.ltb_spec (byteZ b) RuneSelf) as [_|Hge]; [|unfold RuneSelf in Hge; lia].
Qed.

Lemma appendBody_rune eh b r :
  0x80 <= byteZ b ->
  appendBody eh (String b r)
  = (runePiece (String b r)
     ++ appendBody eh (dropS (DecodeRuneInString (String b r)).2 (String b r)))%string.
Proof.
  intros Hb. unfold appendBody. cbn [String.length]. rewrite appendRunes_step.
  destruct (Z.ltb_spec (byteZ b) RuneSelf) as [Hlt|_]; [unfold RuneSelf in Hlt; lia|].
  f_equal. pose proof (DecodeRuneInString_decoded b r Hb) as Hd.
  apply decoded_size in Hd as [Hsz _].
  apply appendRunes_fuel; rewrite ?length_dropS; cbn [String.length]; lia.
Qed.

Lemma coerceRunes_step fuel b r :
  jsonread.coerceRunes (S fuel) (String b r)
  = if byteZ b <? RuneSelf
    then String b (jsonread.coerceRunes fuel r)
    else (coercePiece (String b r)
          ++ jsonread.coerceRunes fuel
               (dropS (DecodeRuneInString (String b r)).2 (String b r)))%string.
Proof.
  cbn [jsonread.coerceRunes]. unfold coercePiece.
  destruct (byteZ b <? RuneSelf); [done|].
  destruct (DecodeRuneInString (String b r)) as [c size]. cbn [snd].
  by destruct ((c =? RuneError) && (size =? 1)%nat).
Qed.

Lemma coerceRunes_fuel fuel fuel' s :
  (String.length s <= fuel)%nat -> (String.length s <= fuel')%nat ->
  jsonread.coerceRunes fuel s = jsonread.coerceRunes fuel' s.
Proof.
  revert fuel' s. induction fuel as [|fuel IH]; intros fuel' s Hf Hf'.
  { destruct s; [by destruct fuel'|cbn in Hf; lia]. }
  destruct s as [|b r]; [by destruct fuel'|].
  destruct fuel' as [|fuel']; [cbn in Hf'; lia|].
  cbn [String.length] in Hf, Hf'. rewrite !coerceRunes_step.
  destruct (Z.ltb_spec (byteZ b) RuneSelf) as [Hlt|Hge].
  - f_equal. apply IH; lia.
  - f_equal. pose proof (DecodeRuneInString_decoded b r Hge) as Hd.
    apply decoded_size in Hd as [Hsz _].
    apply IH; rewrite length_dropS; cbn [String.length]; lia.
Qed.

Lemma coerceUTF8_ascii b r :
  byteZ b < 0x80 ->
  jsonread.coerceUTF8 (String b r) = String b (jsonread.coerceUTF8 r).
Proof.
  intros Hb. unfold jsonread.coerceUTF8. cbn [String.length].
  rewrite coerceRunes_step.
  by destruct (Z.ltb_spec (byteZ b) RuneSelf) as [_|Hge]; [|unfold RuneSelf in Hge; lia].
Qed.

Lemma coerceUTF8_rune b r :
  0x80 <= byteZ b ->
  jsonread.coerceUTF8 (String b r)
  = (coercePiece (String b r)
     ++ jsonread.coerceUTF8
          (dropS (DecodeRuneInString (String b r)).2 (String b r)))%string.
Proof.
  intros Hb. unfold jsonread.coerceUTF8. cbn [String.length].
  rewrite coerceRunes_step.
  destruct (Z.ltb_spec (byteZ b) RuneSelf) as [Hlt|_]; [unfold RuneSelf in Hlt; lia|].
  f_equal. pose proof (DecodeRuneInString_decoded b r Hb) as Hd.
  apply decoded_size in Hd as [Hsz _].
  apply coerceRunes_fuel; rewrite ?length_dropS; cbn [String.length]; lia.
Qed.

End EncoderLoop.

(** ** Reading a string literal back *)

Section ReadString.

Import utf8 json jsonread.
#[local] Open Scope Z_scope.

(** A byte that is neither a quote, a backslash nor a control character is
    read as itself. *)
Lemma lex_copy (b : ascii) (acc tail : string) :
  0x20 <= byteZ b -> byteZ b <> 0x22 -> byteZ b <> 0x5C ->
  lex (Some acc) (String b tail) = lex (Some (acc ++ str1 b)%string) tail.
Proof.
  intros Hctl Hq Hbs. cbn [lex].
  destruct (Ascii.eqb_spec b quoteChar) as [->|_]; [done|].
  destruct (Ascii.eqb_spec b backslash) as [->|_]; [done|].
  by destruct (Z.ltb_spec (byteZ b) 0x20); [lia|].
Qed.

Lemma lex_copy_high (b : ascii) (acc tail : string) :
  0x80 <= byteZ b ->
  lex (Some acc) (String b tail) = lex (Some (acc ++ str1 b)%string) tail.
Proof. intros Hb. apply lex_copy; lia. Qed.

(** What the encoder writes for an ASCII byte is read as that byte. *)
Lemma lex_asciiPiece (eh : bool) (b : ascii) (acc tail : string) :
  byteZ b < 0x80 ->
  lex (Some acc) (asciiPiece eh b ++ tail)
  = lex (Some (acc ++ str1 b)%string) tail.
Proof.
  intros Hb.
  destruct b as [[] [] [] [] [] [] [] []];
    try (exfalso; vm_compute in Hb; discriminate Hb);
    destruct eh; reflexivity.
Qed.

Lemma lex_replacement (acc tail : string) :
  lex (Some acc) (String backslash "ufffd" ++ tail)
  = lex (Some (acc ++ EncodeRune RuneError)%string) tail.
Proof. reflexivity. Qed.

Lemma lex_separator (c : Z) (acc tail : string) :
  c = 0x2028 \/ c = 0x2029 ->
  lex (Some acc)
    (String backslash ("u202" ++ str1 (hex (Z.land c 0xF))) ++ tail)
  = lex (Some (acc ++ EncodeRune c)%string) tail.
Proof. intros [->| ->]; reflexivity. Qed.

Lemma runePiece_error b r :
  DecodeRuneInString (String b r) = (RuneError, 1%nat) ->
  runePiece (String b r) = String backslash "ufffd" /\
  coercePiece (String b r) = EncodeRune RuneError.
Proof. intros H. unfold runePiece, coercePiece. by rewrite H. Qed.

Lemma runePiece_plain b r c size :
  DecodeRuneInString (String b r) = (c, size) ->
  (2 <= size)%nat -> isSeparator c = false ->
  runePiece (String b r) = takeS size (String b r) /\
  coercePiece (String b r) = takeS size (String b r).
Proof.
  intros H Hsz Hsep. unfold runePiece, coercePiece. rewrite H, Hsep.
  replace (size =? 1)%nat with false by (symmetry; apply Nat.eqb_neq; lia).
  by rewrite andb_false_r.
Qed.

Lemma runePiece_separator b r c :
  DecodeRuneInString (String b r) = (c, 3%nat) ->
  isSeparator c = true ->
  runePiece (String b r)
  = String backslash ("u202" ++ str1 (hex (Z.land c 0xF))) /\
  coercePiece (String b r) = takeS 3 (String b r).
Proof.
  intros H Hsep. unfold runePiece, coercePiece. rewrite H, Hsep.
  by rewrite andb_false_r.
Qed.

(** The body of a string literal, up to the closing quote, is read as the
    string the encoder was given, coerced to UTF-8. *)
Lemma lex_appendBody (eh : bool) (n : nat) :
  forall s acc tail,
    (String.length s <= n)%nat ->
    lex (Some acc) (appendBody eh s ++ String quoteChar tail)
    = cons (TString (acc ++ coerceUTF8 s)%string) <$> lex None tail.
Proof.
  induction n as [|n IH]; intros s acc tail Hlen.
  { destruct s; [|cbn in Hlen; lia].
    rewrite appendBody_nil, string_app_nil_l.
    change (coerceUTF8 "") with "". by rewrite string_app_nil_r. }
  destruct s as [|b r].
  { rewrite appendBody_nil, string_app_nil_l.
    change (coerceUTF8 "") with "". by rewrite string_app_nil_r. }
  cbn [String.length] in Hlen.
  destruct (Z.lt_ge_cases (byteZ b) 0x80) as [Hlt|Hge].
  - rewrite appendBody_ascii, coerceUTF8_ascii by done.
    rewrite string_app_assoc, lex_asciiPiece by done.
    rewrite IH by lia. by rewrite string_app_assoc.
  - rewrite appendBody_rune, coerceUTF8_rune by done.
    pose proof (DecodeRuneInString_decoded b r Hge) as Hd.
    destruct (DecodeRuneInString (String b r)) as [c size] eqn:Hdec.
    cbn [fst snd] in *. rewrite string_app_assoc.
    inversion Hd as [Hc Hs | b1 r' Hr H0 H1 Hc Hs
                     | b1 b2 r' Hr H0 H1 H2 Hc Hs
                     | b1 b2 b3 r' Hr H0 Hov H1 H2 H3 Hc Hs]; subst.
    + destruct (runePiece_error _ _ Hdec) as [-> ->].
      rewrite lex_replacement. cbn [dropS].
      rewrite IH by lia. by rewrite string_app_assoc.
    + destruct (runePiece_plain _ _ _ _ Hdec) as [-> ->];
        [lia|by apply value2_plain|].
      cbn [takeS dropS]. rewrite !string_app_cons, string_app_nil_l.
      rewrite !lex_copy_high by lia.
      rewrite IH by (cbn [String.length] in Hlen; lia).
      by rewrite !string_app_assoc.
    + destruct (isSeparator (value3 (byteZ b) (byteZ b1) (byteZ b2))) eqn:Hsep.
      * destruct (runePiece_separator _ _ _ Hdec Hsep) as [-> ->].
        destruct (value3_separator _ _ _ H0 H1 H2 Hsep) as (E0 & E1 & E2).
        rewrite lex_separator by tauto.
        cbn [takeS dropS].
        rewrite IH by (cbn [String.length] in Hlen; lia).
        assert (Hbytes : EncodeRune (value3 (byteZ b) (byteZ b1) (byteZ b2))
                         = String b (String b1 (String b2 ""))).
        { destruct E2 as [[Ev E2]|[Ev E2]]; rewrite Ev;
            rewrite <- (byteOf_byteZ b), <- (byteOf_byteZ b1),
              <- (byteOf_byteZ b2), E0, E1, E2; reflexivity. }
        by rewrite Hbytes, string_app_assoc.
      * destruct (runePiece_plain _ _ _ _ Hdec) as [-> ->]; [lia|done|].
        cbn [takeS dropS]. rewrite !string_app_cons, string_app_nil_l.
        rewrite !lex_copy_high by lia.
        rewrite IH by (cbn [String.length] in Hlen; lia).
        by rewrite !string_app_assoc.
    + destruct (runePiece_plain _ _ _ _ Hdec) as [-> ->];
        [lia|by apply value4_plain|].
      cbn [takeS dropS]. rewrite !string_app_cons, string_app_nil_l.
      rewrite !lex_copy_high by lia.
      rewrite IH by (cbn [String.length] in Hlen; lia).
      by rewrite !string_app_assoc.
Qed.

(** A whole string literal is one token. *)
Lemma lex_appendString (eh : bool) (s tail : string) :
  lex None (appendString eh s ++ tail)
  = cons (TString (coerceUTF8 s)) <$> lex None tail.
Proof.
  unfold appendString. rewrite string_app_cons, string_app_assoc.
  change (str1 quoteChar ++ tail)%string with (String quoteChar tail).
  change (lex None (String quoteChar ?x)) with (lex (Some "") x).
  by rewrite (lex_appendBody eh (String.length s)).
Qed.

End ReadString.

(** ** Reading the whole document back *)

Section ReadDocument.

Import jsonread.

Lemma readsAs_string eh key val :
  (forall tail, lex None (String quoteChar (key ++ str1 quoteChar) ++ tail)
                = cons (TString key) <$> lex None tail) ->
  readsAs (key, json.appendString eh val) (key, TString (coerceUTF8 val)).
Proof.
  intros Hkey tail. unfold renderMember. cbn [fst snd].
  rewrite string_app_assoc, Hkey.
  rewrite string_app_assoc.
  change (": " ++ ?x)%string with (String ":" (String " " x)).
  change (lex None (String ":" (String " " ?x))) with (cons TColon <$> lex None x).
  rewrite lex_appendString.
  by destruct (lex None tail).
Qed.

Lemma readsAs_bool key (val : bool) :
  (forall tail, lex None (String quoteChar (key ++ str1 quoteChar) ++ tail)
                = cons (TString key) <$> lex None tail) ->
  readsAs (key, json.appendBool val) (key, if val then TTrue else TFalse).
Proof.
  intros Hkey tail. unfold renderMember. cbn [fst snd].
  rewrite string_app_assoc, Hkey.
  rewrite string_app_assoc.
  change (": " ++ ?x)%string with (String ":" (String " " x)).
  change (lex None (String ":" (String " " ?x))) with (cons TColon <$> lex None x).
  destruct val; cbn [json.appendBool].
  - change (lex None ("true" ++ tail)) with (cons TTrue <$> lex None tail).
    by destruct (lex None tail).
  - change (lex None ("false" ++ tail)) with (cons TFalse <$> lex None tail).
    by destruct (lex None tail).
Qed.

Lemma readsAs_members X eh m :
  Forall2 readsAs (marshalMembers X eh m) (memberValues X m).
Proof.
  unfold marshalMembers, memberValues.
  repeat apply Forall2_app;
    unfold stringMember, stringValue, boolMember, boolValue;
    match goal with
    | |- context [omitempty X ?k && ?c] => destruct (omitempty X k && c)
    end; constructor; try constructor;
    (apply readsAs_string || apply readsAs_bool); reflexivity.
Qed.

Lemma lex_renderMembers kvs kts tail :
  Forall2 readsAs kvs kts ->
  lex None (renderMembers (String "," (indentNewline "" "     " 1)) kvs
            ++ indentNewline "" "     " 0 ++ tail)
  = (fun ts => memberTokens kts ++ ts) <$> lex None tail.
Proof.
  induction 1 as [|kv kt kvs kts Hkv Hrest IH].
  - cbn [renderMembers memberTokens]. rewrite string_app_nil_l.
    change (lex None (indentNewline "" "     " 0 ++ tail)) with (lex None tail).
    by destruct (lex None tail).
  - destruct Hrest as [|kv' kt' kvs kts Hkv' Hrest].
    + cbn [renderMembers memberTokens]. rewrite Hkv.
      change (lex None (indentNewline "" "     " 0 ++ tail)) with (lex None tail).
      by destruct (lex None tail).
    + change (renderMembers ?sep (kv :: kv' :: kvs))
        with (renderMember kv ++ sep ++ renderMembers sep (kv' :: kvs))%string.
      rewrite !string_app_assoc, Hkv.
      change (lex None (String "," (indentNewline "" "     " 1) ++ ?x))
        with (cons TComma <$> lex None x).
      rewrite IH. cbn [memberTokens].
      by destruct (lex None tail).
Qed.

Lemma lex_renderObject kvs kts :
  Forall2 readsAs kvs kts ->
  lex None (renderObject "" "     " kvs ++ str1 newlineChar)
  = Some (TLBrace :: memberTokens kts ++ [TRBrace]).
Proof.
  intros H. destruct H as [|kv kt kvs kts Hkv Hrest]; [reflexivity|].
  pose proof (List.Forall2_cons _ _ Hkv Hrest) as Hall.
  unfold renderObject.
  change ("{" ++ ?x)%string with (String "{" x).
  rewrite string_app_cons.
  change (lex None (String "{" ?x)) with (cons TLBrace <$> lex None x).
  rewrite !string_app_assoc.
  change (lex None (indentNewline "" "     " 1 ++ ?x)) with (lex None x).
  rewrite (lex_renderMembers _ _ _ Hall). reflexivity.
Qed.

Lemma parseMembers_storeAll kts m m' :
  kts <> [] ->
  storeAll kts m = Some m' ->
  parseMembers m (memberTokens kts ++ [TRBrace]) = Some m'.
Proof.
  revert m. induction kts as [|kt kts IH]; intros m Hne Hstore; [done|].
  cbn [storeAll] in Hstore.
  destruct (setField kt.1 kt.2 m) as [m1|] eqn:Hset; [|done].
  destruct kts as [|kt' kts].
  - cbn [storeAll] in Hstore. injection Hstore as <-.
    cbn [memberTokens app parseMembers]. by rewrite Hset.
  - change (memberTokens (kt :: kt' :: kts))
      with (TString kt.1 :: TColon :: kt.2 :: TComma :: memberTokens (kt' :: kts)).
    cbn [app parseMembers]. rewrite Hset.
    apply IH; [done|exact Hstore].
Qed.

Lemma storeAll_app kts1 kts2 m :
  storeAll (kts1 ++ kts2) m = storeAll kts1 m ≫= storeAll kts2.
Proof.
  revert m. induction kts1 as [|kt kts1 IH]; intros m; [done|].
  cbn [app storeAll]. destruct (setField kt.1 kt.2 m); [apply IH|done].
Qed.

Lemma coerceUTF8_empty : coerceUTF8 "" = "".
Proof. reflexivity. Qed.

Lemma storeAll_memberValues X m :
  storeAll (memberValues X m) zeroMetadata = Some (coerceMetadata m).
Proof.
  destruct m as [sv ve vr sd url [|]];
  unfold memberValues, stringValue, boolValue;
  cbn [SchemaVersion Vendor Version ShortDescription URL Experimental];
  repeat match goal with
         | |- context [omitempty X ?k && String.eqb ?v ""] =>
             destruct (omitempty X k); cbn [andb];
             [destruct (String.eqb_spec v "") as [->|_]|]
         | |- context [omitempty X ?k && negb ?v] =>
             destruct (omitempty X k); cbn [andb negb]
         end; reflexivity.
Qed.

(** The bytes of one [Encode] call are one JSON document, which reads as
    the record, coerced to UTF-8. *)
Lemma parseMetadata_encodeBytes X eh m :
  parseMetadata (encodeBytes X eh "" "     " m) = Some (coerceMetadata m).
Proof.
  unfold parseMetadata, encodeBytes.
  rewrite (lex_renderObject _ _ (readsAs_members X eh m)).
  pose proof (storeAll_memberValues X m) as Hstore.
  destruct (memberValues X m) as [|kt kts] eqn:Hkts.
  - cbn in Hstore |- *. exact Hstore.
  - rewrite <- Hkts in *.
    assert (Hne : memberValues X m <> []) by (by rewrite Hkts).
    pose proof (parseMembers_storeAll _ _ _ Hne Hstore) as Hparse.
    rewrite Hkts in Hparse |- *.
    destruct kts; exact Hparse.
Qed.

End ReadDocument.

(** ** What the reader's coercion keeps *)

Section Coercion.

Import utf8 json jsonread.
#[local] Open Scope Z_scope.

Lemma string_app_eq_nil (a b : string) : (a ++ b)%string = "" -> a = "".
Proof. by destruct a. Qed.

Lemma coercePiece_nonempty b r :
  0x80 <= byteZ b -> coercePiece (String b r) <> "".
Proof.
  intros Hb. pose proof (DecodeRuneInString_decoded b r Hb) as Hd.
  unfold coercePiece.
  destruct (DecodeRuneInString (String b r)) as [c size]. cbn [fst snd] in Hd.
  destruct ((c =? RuneError) && (size =? 1)%nat); [done|].
  apply decoded_size in Hd as [Hsz _].
  destruct size; [lia|done].
Qed.

(** A string is read back empty only if it was empty. *)
Lemma coerceUTF8_eq_nil (s : string) : coerceUTF8 s = "" <-> s = "".
Proof.
  split; [|by intros ->].
  destruct s as [|b r]; [done|]. intros H. exfalso.
  destruct (Z.lt_ge_cases (byteZ b) 0x80) as [Hlt|Hge].
  - by rewrite coerceUTF8_ascii in H.
  - rewrite coerceUTF8_rune in H by done.
    apply string_app_eq_nil in H. by apply coercePiece_nonempty in H.
Qed.

Lemma coerceUTF8_ascii_id (s : string) : allASCII s = true -> coerceUTF8 s = s.
Proof.
  induction s as [|b r IH]; [done|]. cbn [allASCII].
  intros [Hb Hr]%andb_true_iff. apply Z.ltb_lt in Hb.
  rewrite coerceUTF8_ascii by done. by rewrite IH.
Qed.

End Coercion.

(** ** Bytes after an ASCII byte do not change what comes before *)

Section Compositional.

Import utf8 json.
#[local] Open Scope Z_scope.

Lemma byteAt_0 b r : byteAt (String b r) 0 = byteZ b.
Proof. reflexivity. Qed.

Lemma byteAt_S b r i : byteAt (String b r) (S i) = byteAt r i.
Proof. reflexivity. Qed.

Lemma string_length_app (a b : string) :
  String.length (a ++ b) = (String.length a + String.length b)%nat.
Proof.
  induction a as [|x a IH]; [done|].
  rewrite string_app_cons. cbn [String.length]. by rewrite IH.
Qed.

Ltac bool_lia :=
  repeat match goal with
         | H : (_ <? _)%nat = true |- _ => apply Nat.ltb_lt in H
         | H : (_ <? _)%nat = false |- _ => apply Nat.ltb_ge in H
         | H : (_ <=? _)%nat = true |- _ => apply Nat.leb_le in H
         | H : (_ <=? _)%nat = false |- _ => apply Nat.leb_gt in H
         | H : (_ || _) = true |- _ => apply orb_true_iff in H
         | H : (_ || _) = false |- _ => apply orb_false_iff in H as [? ?]
         | H : (_ <? _)%Z = true |- _ => apply Z.ltb_lt in H
         | H : (_ <? _)%Z = false |- _ => apply Z.ltb_ge in H
         end;
  cbn [String.length] in *; intuition lia.

Ltac split_ifs :=
  repeat match goal with
         | |- context [if ?c then _ else _] => destruct c eqn:?
         end.

(** Decoding looks past the end of [r] only to fail. *)
Lemma DecodeRuneInString_app (b0 c : ascii) (r s2 : string) :
  0x80 <= byteZ b0 -> byteZ c < 0x80 ->
  DecodeRuneInString (String b0 (r ++ String c s2))
  = DecodeRuneInString (String b0 r).
Proof.
  intros Hb0 Hc. unfold DecodeRuneInString.
  change (String.length (String b0 ?x)) with (S (String.length x)).
  rewrite !byteAt_0. cbn [Nat.ltb Nat.leb].
  destruct (first (byteZ b0)) as [| |sz lo hi] eqn:Hf; [done|done|].
  apply first_Lead in Hf as (Hsz & Hlo & Hhi). unfold locb, hicb.
  rewrite !byteAt_S, string_length_app. cbn [String.length].
  destruct Hsz as [[-> _]|[[-> _]|[-> _]]].
  - destruct r as [|b1 r1];
      rewrite ?string_app_nil_l, ?string_app_cons, ?byteAt_0, ?byteAt_S;
      cbn [Nat.leb]; split_ifs; try reflexivity; exfalso; bool_lia.
  - destruct r as [|b1 [|b2 r2]];
      rewrite ?string_app_nil_l, ?string_app_cons, ?byteAt_0, ?byteAt_S,
        ?string_app_nil_l, ?byteAt_0;
      cbn [Nat.leb]; split_ifs; try reflexivity; exfalso; bool_lia.
  - destruct r as [|b1 [|b2 [|b3 r3]]];
      rewrite ?string_app_nil_l, ?string_app_cons, ?byteAt_0, ?byteAt_S,
        ?string_app_nil_l, ?byteAt_0;
      cbn [Nat.leb]; split_ifs; try reflexivity; exfalso; bool_lia.
Qed.

Lemma runePiece_app (b0 c : ascii) (r s2 : string) :
  0x80 <= byteZ b0 -> byteZ c < 0x80 ->
  runePiece (String b0 (r ++ String c s2)) = runePiece (String b0 r) /\
  dropS (DecodeRuneInString (String b0 r)).2 (String b0 (r ++ String c s2))
  = (dropS (DecodeRuneInString (String b0 r)).2 (String b0 r)
     ++ String c s2)%string.
Proof.
  intros Hb0 Hc. unfold runePiece.
  rewrite DecodeRuneInString_app by done.
  pose proof (DecodeRuneInString_decoded b0 r Hb0) as Hd.
  destruct (DecodeRuneInString (String b0 r)) as [k size]. cbn [fst snd] in *.
  apply decoded_size in Hd as [Hsz Hlen]. split.
  - destruct ((k =? RuneError) && (size =? 1)%nat); [done|].
    destruct (isSeparator k); [done|].
    rewrite <- string_app_cons. apply takeS_app. cbn [String.length]. lia.
  - rewrite <- string_app_cons. apply dropS_app. cbn [String.length]. lia.
Qed.

(** The encoder treats what precedes an ASCII byte and what follows from it
    independently. *)
Lemma appendBody_app_ascii (eh : bool) (c : ascii) (s2 : string) :
  byteZ c < 0x80 ->
  forall (n : nat) (s1 : string),
    (String.length s1 <= n)%nat ->
    appendBody eh (s1 ++ String c s2)
    = (appendBody eh s1 ++ asciiPiece eh c ++ appendBody eh s2)%string.
Proof.
  intros Hc. induction n as [|n IH]; intros s1 Hlen.
  { destruct s1; [|cbn in Hlen; lia].
    by rewrite string_app_nil_l, appendBody_nil, string_app_nil_l,
         appendBody_ascii. }
  destruct s1 as [|b r].
  { by rewrite string_app_nil_l, appendBody_nil, string_app_nil_l,
         appendBody_ascii. }
  cbn [String.length] in Hlen. rewrite string_app_cons.
  destruct (Z.lt_ge_cases (byteZ b) 0x80) as [Hlt|Hge].
  - rewrite !(appendBody_ascii eh b) by done.
    rewrite IH by lia. by rewrite string_app_assoc.
  - rewrite !(appendBody_rune eh b) by done.
    rewrite DecodeRuneInString_app by done.
    destruct (runePiece_app b c r s2 Hge Hc) as [-> ->].
    pose proof (DecodeRuneInString_decoded b r Hge) as Hd.
    apply decoded_size in Hd as [Hsz _].
    rewrite IH by (rewrite length_dropS; cbn [String.length]; lia).
    by rewrite string_app_assoc.
Qed.

(** With HTML escaping off, the bytes [<], [>] and [&] are written as they
    are, wherever they stand in the string. *)
Lemma appendBody_html_literal (c : ascii) (s1 s2 : string) :
  c = "<"%char \/ c = ">"%char \/ c = "&"%char ->
  appendBody false (s1 ++ String c s2)
  = (appendBody false s1 ++ String c (appendBody false s2))%string.
Proof.
  intros Hc.
  rewrite (appendBody_app_ascii false c s2) with (n := String.length s1);
    [|by destruct Hc as [->|[->| ->]]|done].
  by destruct Hc as [->|[->| ->]].
Qed.

(** With HTML escaping on they would not be. *)
Example appendBody_html_escaped :
  appendBody true "a<b" = String "a" (String backslash "u003cb").
Proof. reflexivity. Qed.

End Compositional.

(** ** The lines of the document *)

Section Lines.

Import utf8 json.
#[local] Open Scope Z_scope.

Lemma splitLines_nonempty s : splitLines s <> [].
Proof.
  destruct s as [|b r]; [done|]. cbn [splitLines].
  destruct (Ascii.eqb b newlineChar); [done|]. by destruct (splitLines r).
Qed.

Lemma splitLines_line (a rest : string) :
  noNewline a = true ->
  splitLines (a ++ String newlineChar rest) = a :: splitLines rest.
Proof.
  induction a as [|b a IH]; intros Ha.
  - rewrite string_app_nil_l. cbn [splitLines]. by rewrite Ascii.eqb_refl.
  - cbn [noNewline] in Ha. apply andb_true_iff in Ha as [Hb Ha].
    apply negb_true_iff in Hb.
    rewrite string_app_cons. cbn [splitLines]. by rewrite Hb, IH.
Qed.

Lemma noNewline_app (a b : string) :
  noNewline (a ++ b) = noNewline a && noNewline b.
Proof.
  induction a as [|x a IH]; [done|].
  rewrite string_app_cons. cbn [noNewline]. by rewrite IH, andb_assoc.
Qed.

Lemma noNewline_high (b : ascii) : 0x80 <= byteZ b -> Ascii.eqb b newlineChar = false.
Proof.
  intros Hb. destruct (Ascii.eqb_spec b newlineChar) as [->|]; [|done].
  vm_compute in Hb. by destruct Hb.
Qed.

Lemma noNewline_asciiPiece eh b :
  byteZ b < 0x80 -> noNewline (asciiPiece eh b) = true.
Proof.
  intros Hb.
  destruct b as [[] [] [] [] [] [] [] []];
    try (exfalso; vm_compute in Hb; discriminate Hb);
    by destruct eh.
Qed.

Lemma noNewline_runePiece b r :
  0x80 <= byteZ b -> noNewline (runePiece (String b r)) = true.
Proof.
  intros Hb. pose proof (DecodeRuneInString_decoded b r Hb) as Hd.
  unfold runePiece.
  destruct (DecodeRuneInString (String b r)) as [c size]. cbn [fst snd] in Hd.
  destruct ((c =? RuneError) && (size =? 1)%nat); [done|].
  destruct (isSeparator c) eqn:Hsep.
  { unfold isSeparator in Hsep. apply orb_true_iff in Hsep as [H|H];
      apply Z.eqb_eq in H; by subst c. }
  inversion Hd; subst; cbn [takeS noNewline];
    rewrite ?noNewline_high by lia; done.
Qed.

Lemma noNewline_appendBody eh (n : nat) :
  forall s, (String.length s <= n)%nat -> noNewline (appendBody eh s) = true.
Proof.
  induction n as [|n IH]; intros s Hlen.
  { by destruct s; [|cbn in Hlen; lia]. }
  destruct s as [|b r]; [done|]. cbn [String.length] in Hlen.
  destruct (Z.lt_ge_cases (byteZ b) 0x80) as [Hlt|Hge].
  - rewrite appendBody_ascii, noNewline_app, noNewline_asciiPiece by done.
    apply IH. lia.
  - rewrite appendBody_rune, noNewline_app, noNewline_runePiece by done.
    pose proof (DecodeRuneInString_decoded b r Hge) as Hd.
    apply decoded_size in Hd as [Hsz _].
    apply IH. rewrite length_dropS. cbn [String.length]. lia.
Qed.

Lemma noNewline_appendString eh s : noNewline (appendString eh s) = true.
Proof.
  unfold appendString. cbn [noNewline].
  by rewrite noNewline_app, (noNewline_appendBody eh (String.length s)).
Qed.

(** No rendered member of a record spans lines. *)
Lemma noNewline_members X eh m :
  Forall (fun kv => noNewline (renderMember kv) = true) (marshalMembers X eh m).
Proof.
  unfold marshalMembers.
  repeat apply Forall_app_2;
    unfold stringMember, boolMember;
    match goal with
    | |- context [omitempty X ?k && ?c] => destruct (omitempty X k && c)
    end; constructor; try constructor; unfold renderMember; cbn [fst snd];
    rewrite ?noNewline_app, ?noNewline_appendString; try done.
  all: by destruct (Experimental m).
Qed.

Lemma indentNewline_1 indent :
  indentNewline "" indent 1 = String newlineChar indent.
Proof.
  unfold indentNewline. cbn [repeatS].
  by rewrite string_app_nil_l, string_app_nil_r.
Qed.

Lemma indentNewline_0 indent : indentNewline "" indent 0 = str1 newlineChar.
Proof. reflexivity. Qed.

Lemma splitLines_renderMembers indent ms tail :
  noNewline indent = true ->
  Forall (fun kv => noNewline (renderMember kv) = true) ms ->
  ms <> [] ->
  splitLines (indent ++ renderMembers ("," ++ String newlineChar indent) ms
              ++ String newlineChar tail)
  = memberLines indent ms ++ splitLines tail.
Proof.
  intros Hind Hms. induction Hms as [|kv ms Hkv Hms IH]; [done|]. intros _.
  destruct ms as [|kv' ms].
  - cbn [renderMembers memberLines app].
    rewrite <- string_app_assoc. apply splitLines_line.
    by rewrite noNewline_app, Hind, Hkv.
  - change (renderMembers ?sep (kv :: kv' :: ms))
      with (renderMember kv ++ sep ++ renderMembers sep (kv' :: ms))%string.
    change (memberLines indent (kv :: kv' :: ms))
      with ((indent ++ renderMember kv ++ ",")%string
            :: memberLines indent (kv' :: ms)).
    cbn [app]. rewrite <- IH by done.
    rewrite <- splitLines_line
      by (by rewrite !noNewline_app, Hind, Hkv).
    f_equal. rewrite !string_app_assoc. reflexivity.
Qed.

(** The document has one line per member, indented as [SetIndent] asks. *)
Lemma splitLines_encodeBytes X eh indent m :
  noNewline indent = true ->
  splitLines (encodeBytes X eh "" indent m)
  = documentLines indent (marshalMembers X eh m).
Proof.
  intros Hind. unfold encodeBytes, renderObject, documentLines.
  pose proof (noNewline_members X eh m) as Hms.
  destruct (marshalMembers X eh m) as [|kv ms] eqn:Heq; [reflexivity|].
  rewrite <- Heq in *.
  assert (Hne : marshalMembers X eh m <> []) by (by rewrite Heq).
  rewrite indentNewline_1, indentNewline_0.
  change (String "," (String newlineChar indent))
    with ("," ++ String newlineChar indent)%string.
  transitivity (splitLines
    ("{" ++ String newlineChar
       (indent ++ renderMembers ("," ++ String newlineChar indent)
                    (marshalMembers X eh m)
        ++ String newlineChar ("}" ++ String newlineChar ""))));
    [f_equal; rewrite !string_app_assoc; reflexivity|].
  rewrite splitLines_line by done. f_equal.
  rewrite (splitLines_renderMembers indent _ _ Hind Hms Hne).
  reflexivity.
Qed.

(** Every member of the object occurs in the rendered text. *)
Lemma occursIn_renderMembers sep kv ms :
  kv ∈ ms -> occursIn (renderMember kv) (renderMembers sep ms).
Proof.
  induction ms as [|kv0 ms IH]; intros Hin; [by apply elem_of_nil in Hin|].
  apply elem_of_cons in Hin as [->|Hin].
  - destruct ms as [|kv1 ms].
    + exists "", "". by rewrite string_app_nil_l, string_app_nil_r.
    + exists "", (sep ++ renderMembers sep (kv1 :: ms))%string.
      by rewrite string_app_nil_l.
  - destruct (IH Hin) as (pre & post & Heq).
    destruct ms as [|kv1 ms]; [by apply elem_of_nil in Hin|].
    exists (renderMember kv0 ++ sep ++ pre)%string, post.
    change (renderMembers sep (kv0 :: kv1 :: ms))
      with (renderMember kv0 ++ sep ++ renderMembers sep (kv1 :: ms))%string.
    rewrite Heq. by rewrite !string_app_assoc.
Qed.

Lemma occursIn_encodeBytes X eh prefix indent m kv :
  kv ∈ marshalMembers X eh m ->
  occursIn (renderMember kv) (encodeBytes X eh prefix indent m).
Proof.
  intros Hin. unfold encodeBytes, renderObject.
  destruct (marshalMembers X eh m) as [|kv0 ms] eqn:Heq;
    [by apply elem_of_nil in Hin|].
  rewrite <- Heq in *.
  destruct (occursIn_renderMembers
              ("," ++ indentNewline prefix indent 1)%string kv _ Hin)
    as (pre & post & ->).
  exists ("{" ++ indentNewline prefix indent 1 ++ pre)%string,
         (post ++ indentNewline prefix indent 0 ++ "}" ++ str1 newlineChar)%string.
  by rewrite !string_app_assoc.
Qed.

(** A string field that is not empty is a member of the object. *)
Lemma stringFields_members X eh m key val :
  (key, val) ∈ stringFields m -> val <> "" ->
  (key, appendString eh val) ∈ marshalMembers X eh m.
Proof.
  intros Hin Hne. unfold stringFields in Hin. unfold marshalMembers.
  assert (Hmem : stringMember X eh key val = [(key, appendString eh val)]).
  { unfold stringMember. destruct (String.eqb_spec val ""); [done|].
    by rewrite andb_false_r. }
  repeat (apply elem_of_cons in Hin as [[= -> ->]|Hin];
          [rewrite Hmem; set_solver|]).
  by apply elem_of_nil in Hin.
Qed.

End Lines.

(** ** The metadata document *)

Lemma metadataQuery_later short :
  metadataQuery Examples.externals 1 (Examples.pluginCommand short 0)
    (Examples.laterWorld short).
Proof.
  by exists "/usr/libexec/docker/cli-plugins/docker-myplugin",
            ["docker-cli-plugin-metadata"; "extra"], ["extra"].
Qed.

Lemma metadata_output_deterministic_witness :
  let meta := Examples.metadata "" in
  let w1 := Examples.queryWorld "An example" meta in
  let w2 := Examples.laterWorld "An example" in
  exists out,
    osStdout (runPlugin Examples.externals 0 meta w1).1 = out /\
    osStdout (runPlugin Examples.externals 1 meta w2).1
    = ("earlier output" ++ out)%string /\
    (runPlugin Examples.externals 0 meta w1).2
    = (runPlugin Examples.externals 1 meta w2).2.
Proof.
  intros meta w1 w2.
  exact (metadata_output_deterministic Examples.externals 0 1
           (Examples.pluginCommand "An example" 0) meta w1 w2 eq_refl
           (metadataQuery_example "An example" meta)
           (metadataQuery_later "An example")).
Defined.

(** C7: a metadata query succeeds and writes to standard output, and to
    no other stream, the bytes of one JSON document: they read back as the
    record (so there is exactly one object and nothing but white space
    around it), they end in a newline, every member is on a line of its
    own indented by five spaces, and a [<], [>] or [&] in a string field
    stands in the output as it is. *)
Theorem metadata_query_output (X : Externals) (plugin : ptr)
    (pc : cobra.Command) (meta : Metadata) (w : World) :
  oneWordName X ->
  metadataQuery X plugin pc w ->
  let m := defaultShortDescription meta (cobra.Short pc) in
  let out := metadataBytes X m in
  (exists w',
     runPlugin X plugin meta w = (w', Val None) /\
     osStdout w' = (osStdout w ++ out)%string /\
     osStderr w' = osStderr w /\ cliErr w' = cliErr w) /\
  jsonread.parseMetadata out = Some (jsonread.coerceMetadata m) /\
  splitLines out = documentLines "     " (marshalMembers X false m) /\
  (forall key s1 c s2,
     (key, (s1 ++ String c s2)%string) ∈ stringFields m ->
     c = "<"%char \/ c = ">"%char \/ c = "&"%char ->
     occursIn
       (renderMember
          (key, String quoteChar
                  (json.appendBody false s1
                   ++ String c (json.appendBody false s2)
                   ++ str1 quoteChar)))
       out).
Proof.
  intros Hname Hq m out. repeat split.
  - rewrite (runPlugin_metadataQuery X plugin pc meta w Hname Hq). by eexists.
  - apply parseMetadata_encodeBytes.
  - by apply splitLines_encodeBytes.
  - intros key s1 c s2 Hin Hc.
    assert (Hne : (s1 ++ String c s2)%string <> "") by (by destruct s1).
    pose proof (stringFields_members X false m key _ Hin Hne) as Hmem.
    pose proof (occursIn_encodeBytes X false "" "     " m _ Hmem) as Hocc.
    unfold json.appendString in Hocc.
    rewrite (appendBody_html_literal c s1 s2 Hc) in Hocc.
    by rewrite string_app_assoc in Hocc.
Qed.

Lemma metadata_query_output_witness :
  let meta := Examples.metadata "" in
  let short := "Lists & <finds> things" in
  let w := Examples.queryWorld short meta in
  let out := metadataBytes Examples.externals (Examples.metadata short) in
  (exists w',
     runPlugin Examples.externals 0 meta w = (w', Val None) /\
     osStdout w' = out /\ osStderr w' = "" /\ cliErr w' = "") /\
  jsonread.parseMetadata out = Some (Examples.metadata short) /\
  splitLines out
  = ["{";
     String.append "     " (renderMember ("SchemaVersion", json.appendString false "0.1.0")
                            ++ ",");
     String.append "     " (renderMember ("Vendor", json.appendString false "ACME <Labs> & Co")
                            ++ ",");
     String.append "     " (renderMember ("ShortDescription", json.appendString false short));
     "}"; ""].
Proof.
  intros meta short w out.
  pose proof (metadata_query_output Examples.externals 0
                (Examples.pluginCommand short 0) meta w eq_refl
                (metadataQuery_example short meta)) as (H1 & H2 & H3 & _).
  split; [exact H1|]. split; [exact H2|exact H3].
Defined.

(** C6, as the code has it: when the supplied record has no short
    description, the responder serializes, from a copy of its own, the
    record with the plugin command's [Short] in its place; the caller's
    record is not written.  The output reads back as a record whose short
    description is the supplied one, or else the command's, coerced to
    UTF-8; it is empty exactly when both are. *)
Theorem metadata_query_short_description (X : Externals) (plugin : ptr)
    (pc : cobra.Command) (meta : Metadata) (w : World) :
  oneWordName X ->
  metadataQuery X plugin pc w ->
  exists w' out r,
    runPlugin X plugin meta w = (w', Val None) /\
    osStdout w' = (osStdout w ++ out)%string /\
    jsonread.parseMetadata out = Some r /\
    ShortDescription r
    = jsonread.coerceUTF8
        (if String.eqb (ShortDescription meta) "" then cobra.Short pc
         else ShortDescription meta) /\
    (ShortDescription r = "" <->
     ShortDescription meta = "" /\ cobra.Short pc = "") /\
    (forall a, metas w !! a = Some meta -> metas w' !! a = Some meta).
Proof.
  intros Hname Hq.
  rewrite (runPlugin_metadataQuery X plugin pc meta w Hname Hq).
  eexists _, _, _. split; [reflexivity|]. split; [reflexivity|].
  split; [apply parseMetadata_encodeBytes|].
  cbn [ShortDescription jsonread.coerceMetadata].
  assert (Hsd : ShortDescription (defaultShortDescription meta (cobra.Short pc))
                = if String.eqb (ShortDescription meta) "" then cobra.Short pc
                  else ShortDescription meta).
  { unfold defaultShortDescription.
    by destruct (String.eqb (ShortDescription meta) ""). }
  rewrite Hsd. split; [reflexivity|]. split.
  - rewrite coerceUTF8_eq_nil.
    destruct (String.eqb_spec (ShortDescription meta) ""); tauto.
  - intros a Ha. cbn [metas withStdout ready withHeap withMetas].
    rewrite lookup_app_l; [done|]. by apply lookup_lt_Some in Ha.
Qed.

Lemma metadata_query_short_description_witness :
  let meta := Examples.metadata "" in
  let w := Examples.queryWorld "An example" meta in
  exists w' out r,
    runPlugin Examples.externals 0 meta w = (w', Val None) /\
    osStdout w' = out /\
    jsonread.parseMetadata out = Some r /\
    ShortDescription r = "An example" /\
    (ShortDescription r = "" <-> "" = "" /\ "An example" = "") /\
    (forall a, metas w !! a = Some meta -> metas w' !! a = Some meta).
Proof.
  intros meta w.
  exact (metadata_query_short_description Examples.externals 0
           (Examples.pluginCommand "An example" 0) meta w eq_refl
           (metadataQuery_example "An example" meta)).
Defined.

(** The claim as the specification has it fails when neither the record
    nor the plugin command has a short description: the document then
    reads back with an empty one. *)
Lemma metadata_query_short_description_counterexample :
  let meta := Examples.metadata "" in
  let w := Examples.queryWorld "" meta in
  let w' := (runPlugin Examples.externals 0 meta w).1 in
  metadataQuery Examples.externals 0 (Examples.pluginCommand "" 0) w /\
  ~ (exists r, jsonread.parseMetadata (osStdout w') = Some r /\
               ShortDescription r <> "").
Proof.
  intros meta w w'. split; [apply metadataQuery_example|].
  intros (r & Hr & Hne). vm_compute in Hr. injection Hr as <-. by apply Hne.
Qed.

(** * Further properties of [plugin.go] *)

(** ** The flags handed to the re-executed CLI *)

Lemma scanArgs_without name flags args :
  name ∉ flags -> name ∉ scanArgs name flags args.
Proof.
  revert flags. induction args as [|a args IH]; intros flags Hnot; [done|].
  cbn [scanArgs]. destruct (String.eqb_spec a name) as [->|Hne]; [done|].
  apply IH. apply not_elem_of_app. split; [done|].
  apply not_elem_of_cons. split; [congruence|apply not_elem_of_nil].
Qed.

(** X1: the plugin's own name is never among the flags handed to the
    re-executed CLI, whatever the argument vector, unless the plugin is
    itself called "system" or "dial-stdio": the tunnel command cannot
    dispatch back into the plugin. *)
Theorem dialStdioFlags_without_name (name : string) (argv : list string) :
  name <> "system" -> name <> "dial-stdio" ->
  name ∉ dialStdioFlags name argv.
Proof.
  intros Hs Hd. unfold dialStdioFlags.
  rewrite elem_of_app. intros [Hin|Hin].
  - by apply (scanArgs_without name [] argv (not_elem_of_nil _)).
  - apply elem_of_cons in Hin as [->|Hin]; [done|].
    apply elem_of_cons in Hin as [->|Hin]; [done|].
    by apply elem_of_nil in Hin.
Qed.

Lemma dialStdioFlags_without_name_witness :
  "myplugin" ∉ dialStdioFlags "myplugin"
                 ["--context"; "remote"; "myplugin"; "run"; "myplugin"].
Proof.
  apply dialStdioFlags_without_name; discriminate.
Defined.

(** ** The client factory *)

Lemma withPluginClientConn_eq X name prog argv w :
  osArgs w = prog :: argv ->
  withPluginClientConn X name w
  = (let w1 := withTrace (trace w ++ [EvConnectionHelper (reexecCommand X w)
                                        (dialStdioFlags name argv)]) w in
     match GetCommandConnectionHelper X (reexecCommand X w)
             (dialStdioFlags name argv) with
     | Some err => (w1, Val (Some err))
     | None =>
         let w2 := withTrace (trace w1 ++ [EvNewClient]) w1 in
         (w2, Val (NewClientWithOpts X w2))
     end).
Proof.
  intros Hargs.
  unfold withPluginClientConn, bind, Getenv, ask, argsFrom1, emit, modify, ret,
    reexecCommand.
  rewrite Hargs. cbn.
  by destruct (GetCommandConnectionHelper X _ _).
Qed.

(** X2: the bridge re-invokes the executable named by the environment
    variable when that is set and not empty, and "docker" when it is
    unset or empty, always with the scanned flags. *)
Theorem withPluginClientConn_reexec (X : Externals) (name prog : string)
    (argv : list string) (w : World) :
  osArgs w = prog :: argv ->
  exists cmd,
    trace (withPluginClientConn X name w).1 !! length (trace w)
    = Some (EvConnectionHelper cmd (dialStdioFlags name argv)) /\
    (environ w !! ReexecEnvvar X = None -> cmd = "docker") /\
    (environ w !! ReexecEnvvar X = Some "" -> cmd = "docker") /\
    (forall x, environ w !! ReexecEnvvar X = Some x -> x <> "" -> cmd = x).
Proof.
  intros Hargs. exists (reexecCommand X w). split.
  - rewrite (withPluginClientConn_eq X name prog argv w Hargs). cbn zeta.
    destruct (GetCommandConnectionHelper X _ _); cbn [fst trace withTrace].
    + by rewrite lookup_app_r, Nat.sub_diag.
    + rewrite <- app_assoc. by rewrite lookup_app_r, Nat.sub_diag.
  - unfold reexecCommand. repeat split.
    + by intros ->.
    + by intros ->.
    + intros x -> Hx. cbn. by destruct (String.eqb_spec x "").
Qed.

Lemma withPluginClientConn_reexec_witness :
  let w := Examples.laterWorld "An example" in
  exists cmd,
    trace (withPluginClientConn Examples.externals "myplugin" w).1 !! 1
    = Some (EvConnectionHelper cmd
              (dialStdioFlags "myplugin" ["docker-cli-plugin-metadata"; "extra"])) /\
    cmd = "/usr/bin/docker".
Proof.
  intros w.
  destruct (withPluginClientConn_reexec Examples.externals "myplugin"
              "/usr/libexec/docker/cli-plugins/docker-myplugin"
              ["docker-cli-plugin-metadata"; "extra"] w eq_refl)
    as (cmd & Hev & _ & _ & Hset).
  exists cmd. split; [exact Hev|].
  apply Hset; [|discriminate].
  vm_compute. reflexivity.
Defined.

(** X3: when the connection helper cannot be had, the factory returns its
    error at once: no client is created, and the process is as it was
    but for the one request to the helper. *)
Theorem withPluginClientConn_helper_error (X : Externals) (name prog : string)
    (argv : list string) (w : World) (err : error) :
  osArgs w = prog :: argv ->
  GetCommandConnectionHelper X (reexecCommand X w) (dialStdioFlags name argv)
  = Some err ->
  withPluginClientConn X name w
  = (withTrace (trace w ++ [EvConnectionHelper (reexecCommand X w)
                              (dialStdioFlags name argv)]) w,
     Val (Some err)).
Proof.
  intros Hargs Hhelper.
  rewrite (withPluginClientConn_eq X name prog argv w Hargs). cbn zeta.
  by rewrite Hhelper.
Qed.

Lemma withPluginClientConn_helper_error_witness :
  let err := otherError "exec: docker: not found" in
  let X := Scenarios.externals None (Some err) None in
  let w := Scenarios.pluginWorld 2 in
  withPluginClientConn X "myplugin" w
  = (withTrace [EvConnectionHelper "docker" ["system"; "dial-stdio"]] w,
     Val (Some err)).
Proof.
  intros err X w.
  exact (withPluginClientConn_helper_error X "myplugin" "docker-myplugin"
           ["myplugin"; "ls"] w err eq_refl eq_refl).
Defined.

(** ** Command assembly *)

(** X4: [newPluginCommand] adds two commands to the heap and returns the
    first, the root: a command called "docker" without parent, run function
    or hook, whose usage line and short description name the plugin.  The
    children of the root are the plugin command and the new metadata
    command, each once; both have the root as parent.  The metadata command
    is hidden, is called by the name of the metadata subcommand and runs
    the closure over a new variable, which holds the record with its short
    description defaulted.  The plugin command is otherwise as the author
    built it, and so is every other command the author holds.  Nothing is
    printed and nothing is asked of other packages.  The order of the
    children of a command is left open: cobra sorts them when it lists
    them. *)
Theorem newPluginCommand_tree (X : Externals) (plugin : ptr)
    (pc : cobra.Command) (meta : Metadata) (w : World) :
  heap w !! plugin = Some pc ->
  let root := length (heap w) in
  let v := length (metas w) in
  exists w' rc mc pc',
    newPluginCommand X plugin meta w = (w', Val root) /\
    length (heap w') = S (S root) /\
    heap w' !! root = Some rc /\
    heap w' !! S root = Some mc /\
    heap w' !! plugin = Some pc' /\
    (* the root *)
    cobra.commands rc ≡ₚ [plugin; S root] /\
    cobra.parent rc = None /\
    cobra.Name rc = "docker" /\
    cobra.Use rc = ("docker [OPTIONS] " ++ cobra.Name pc ++ " [ARG...]")%string /\
    cobra.Short rc
    = ((NamePrefix X ++ cobra.Name pc) ++ " is a Docker CLI plugin")%string /\
    cobra.RunE rc = None /\ cobra.PersistentPreRunE rc = None /\
    cobra.PersistentPreRun rc = None /\
    (* the metadata command *)
    cobra.Use mc = MetadataSubcommandName X /\
    cobra.Hidden mc = true /\
    cobra.parent mc = Some root /\
    cobra.commands mc = [] /\
    cobra.PersistentPreRunE mc = None /\ cobra.PersistentPreRun mc = None /\
    cobra.RunE mc = Some (metadataRunE v) /\
    metas w' !! v = Some (defaultShortDescription meta (cobra.Short pc)) /\
    (* the plugin command and the other commands *)
    cobra.parent pc' = Some root /\ sameCommand pc pc' /\
    (forall q c, q <> plugin -> heap w !! q = Some c ->
       exists c', heap w' !! q = Some c' /\
                  cobra.parent c' = cobra.parent c /\ sameCommand c c') /\
    trace w' = trace w /\ osStdout w' = osStdout w /\
    osStderr w' = osStderr w /\ cliErr w' = cliErr w.
Proof.
  intros Hp root v. pose proof (lookup_lt_Some _ _ _ Hp) as Hlt.
  rewrite (newPluginCommand_eq X plugin pc meta w Hp).
  eexists _, _, _, _. split; [reflexivity|].
  unfold assembled. cbn [heap withHeap withMetas metas trace osStdout osStderr cliErr].
  split; [apply treeHeap_length|].
  split; [apply treeHeap_root|]. split; [apply treeHeap_metadata|].
  split; [by apply treeHeap_plugin|].
  repeat split; try reflexivity.
  - by apply lookup_tail0.
  - intros q c Hq Hc. exists c. repeat split; try reflexivity.
    unfold treeHeap.
    rewrite lookup_app_l by (rewrite length_insert; by apply lookup_lt_Some in Hc).
    by rewrite list_lookup_insert_ne.
Qed.

Lemma newPluginCommand_tree_witness :
  let pc := Examples.pluginCommand "An example" 0 in
  let w := Examples.laterWorld "An example" in
  exists w' rc mc pc',
    newPluginCommand Examples.externals 1 (Examples.metadata "") w
    = (w', Val 2) /\
    length (heap w') = 4 /\
    heap w' !! 2 = Some rc /\ heap w' !! 3 = Some mc /\
    heap w' !! 1 = Some pc' /\
    cobra.commands rc ≡ₚ [1; 3] /\
    cobra.Use rc = "docker [OPTIONS] myplugin [ARG...]" /\
    cobra.Short rc = "docker-myplugin is a Docker CLI plugin" /\
    cobra.RunE mc = Some (metadataRunE 0) /\
    metas w' !! 0 = Some (Examples.metadata "An example") /\
    cobra.parent pc' = Some 2 /\ cobra.RunE pc' = Some (authorFunc 0).
Proof.
  intros pc w.
  destruct (newPluginCommand_tree Examples.externals 1 pc
              (Examples.metadata "") w eq_refl)
    as (w' & rc & mc & pc' & H1 & H2 & H3 & H4 & H5 & H6 & _ & _ & H9 & H10
        & _ & _ & _ & _ & _ & _ & _ & _ & _ & H20 & H21 & H22 & Hsame & _).
  exists w', rc, mc, pc'. repeat split; try assumption.
  destruct Hsame as (_ & _ & _ & _ & _ & _ & Hrun & _). exact Hrun.
Defined.

(** X5: with a nil plugin command nothing is built: [runPlugin] panics on
    the first use of the command and leaves the process as it found it,
    and [Run] ends in that panic without printing or choosing an exit
    status. *)
Theorem Run_nil_plugin (X : Externals) (makeCmd : M ptr) (meta : Metadata)
    (w w1 : World) (plugin : ptr) :
  NewDockerCli X w = None ->
  makeCmd w = (w1, Val plugin) ->
  heap w1 !! plugin = None ->
  runPlugin X plugin meta w1 = (w1, Panic "nil pointer dereference") /\
  Run X makeCmd meta w = (w1, Panic "nil pointer dereference").
Proof.
  intros Hcli Hmk Hnil.
  assert (Hrun : runPlugin X plugin meta w1
                 = (w1, Panic "nil pointer dereference")).
  { unfold runPlugin, newPluginCommand, bind, deref. by rewrite Hnil. }
  split; [exact Hrun|].
  unfold Run, bind, ask. rewrite Hcli. cbn. by rewrite Hmk, Hrun.
Qed.

Lemma Run_nil_plugin_witness :
  let w := Examples.queryWorld "An example" (Examples.metadata "") in
  runPlugin Examples.externals 7 (Examples.metadata "") w
  = (w, Panic "nil pointer dereference") /\
  Run Examples.externals (ret 7) (Examples.metadata "") w
  = (w, Panic "nil pointer dereference").
Proof.
  intros w.
  exact (Run_nil_plugin Examples.externals (ret 7) (Examples.metadata "")
           w w 7 eq_refl eq_refl eq_refl).
Defined.

(** X6: [newMetadataSubcommand] looks at the plugin command only when the
    record has no short description.  With one, it keeps the record as it
    is, whatever the plugin pointer, nil included; without one, a nil
    plugin pointer panics. *)
Theorem newMetadataSubcommand_described (X : Externals) (plugin : ptr)
    (meta : Metadata) (w : World) :
  ShortDescription meta <> "" ->
  newMetadataSubcommand X plugin meta w
  = (withHeap (heap w ++ [metadataLiteral X (length (metas w))])
       (withMetas (metas w ++ [meta]) w),
     Val (length (heap w))) /\
  (heap w !! plugin = None ->
   (newMetadataSubcommand X plugin (withShortDescription meta "") w).2
   = Panic "nil pointer dereference").
Proof.
  intros Hsd. split.
  - unfold newMetadataSubcommand, bind, newMetaVar, readMeta, alloc, ret.
    cbn. rewrite lookup_app_r by lia. rewrite Nat.sub_diag. cbn.
    by destruct (String.eqb_spec (ShortDescription meta) "").
  - intros Hnil.
    unfold newMetadataSubcommand, bind, newMetaVar, readMeta, deref, alloc, ret.
    cbn. rewrite lookup_app_r by lia. rewrite Nat.sub_diag. cbn.
    by rewrite Hnil.
Qed.

Lemma newMetadataSubcommand_described_witness :
  let meta := Examples.metadata "Does things" in
  let w := Examples.queryWorld "An example" meta in
  newMetadataSubcommand Examples.externals 7 meta w
  = (withHeap (heap w ++ [metadataLiteral Examples.externals 1])
       (withMetas (metas w ++ [meta]) w),
     Val 1).
Proof.
  intros meta w.
  refine (proj1 (newMetadataSubcommand_described Examples.externals 7 meta w _)).
  discriminate.
Defined.

(** ** Running the assembled command *)

Lemma runPluginWith_eq X handle plugin pc meta w :
  heap w !! plugin = Some pc ->
  runPluginWith X handle plugin meta w
  = (do r <- handle (length (heap w));
     match r.2 with
     | Some err => ret (Some err)
     | None => Execute X r.1
     end) (ready X plugin pc meta w).
Proof.
  intros Hp. pose proof (lookup_lt_Some _ _ _ Hp) as Hlt.
  unfold runPluginWith.
  rewrite (bind_val _ _ _ _ _ (newPluginCommand_eq X _ _ meta _ Hp)).
  erewrite bind_val; cycle 1.
  { apply update_eq. unfold assembled. cbn [heap withHeap].
    by apply treeHeap_plugin. }
  unfold assembled, ready. cbn [heap withHeap metas withMetas].
  by rewrite treeHeap_insert.
Qed.

(** X7: when the handling of the global flags returns an error,
    [runPlugin] returns that error and goes no further.  Whatever the
    collaborator is and does, it is called on the assembled tree with the
    hook in place, and the process is left exactly as the collaborator left
    it: no command is looked up or run and nothing is written after it. *)
Theorem runPlugin_flag_error (X : Externals)
    (handle : ptr -> M (ptr * option error)) (plugin c : ptr)
    (pc : cobra.Command) (meta : Metadata) (w w' : World) (err : error) :
  heap w !! plugin = Some pc ->
  handle (length (heap w)) (ready X plugin pc meta w) = (w', Val (c, Some err)) ->
  runPluginWith X handle plugin meta w = (w', Val (Some err)) /\
  runPlugin X plugin meta = runPluginWith X (HandleGlobalFlags X) plugin meta.
Proof.
  intros Hp Hhandle. split; [|reflexivity].
  rewrite (runPluginWith_eq X handle plugin pc meta w Hp).
  by rewrite (bind_val _ _ _ _ _ Hhandle).
Qed.

Lemma runPlugin_flag_error_witness :
  let err := otherError "unknown flag: --bogus" in
  let w := Scenarios.pluginWorld 2 in
  exists w',
    runPluginWith Scenarios.working (Scenarios.rejectFlags err) 0
      (Examples.metadata "") w = (w', Val (Some err)) /\
    trace w' = [] /\ osStdout w' = "" /\ clientReady w' = true.
Proof.
  intros err w. eexists. split.
  - exact (proj1 (runPlugin_flag_error Scenarios.working
                    (Scenarios.rejectFlags err) 0 1
                    (Examples.pluginCommand "An example" 2)
                    (Examples.metadata "") w _ err eq_refl eq_refl)).
  - repeat split.
Defined.










(** ** The exit status, continued *)

(** X11: an error that is not a structured failure is printed on the error
    stream of the CLI as its text on a line of its own, and the process
    exits with 1, whatever the error. *)
Theorem Run_other_error (X : Externals) (makeCmd : M ptr) (meta : Metadata)
    (w w1 w2 : World) (plugin : ptr) (text : string) :
  NewDockerCli X w = None ->
  makeCmd w = (w1, Val plugin) ->
  runPlugin X plugin meta w1 = (w2, Val (Some (otherError text))) ->
  exists w3,
    Run X makeCmd meta w = (w3, Exit 1) /\
    cliErr w3 = (cliErr w2 ++ text ++ str1 newlineChar)%string /\
    osStderr w3 = osStderr w2 /\ osStdout w3 = osStdout w2.
Proof.
  intros Hcli Hmk Hrun.
  unfold Run, bind, ask. rewrite Hcli. cbn. rewrite Hmk, Hrun. cbn.
  by eexists.
Qed.

Lemma Run_other_error_witness :
  let meta := Examples.metadata "" in
  let w := Scenarios.pluginWorld 0 in
  let w2 := (runPlugin Scenarios.working 0 meta w).1 in
  exists w3,
    Run Scenarios.working (ret 0) meta w = (w3, Exit 1) /\
    cliErr w3 = ("no such container" ++ str1 newlineChar)%string /\
    osStderr w3 = "" /\ osStdout w3 = "".
Proof.
  intros meta w w2.
  apply (Run_other_error Scenarios.working (ret 0) meta w w w2 0
           "no such container").
  - reflexivity.
  - reflexivity.
  - vm_compute. reflexivity.
Defined.

(** X12: when the CLI cannot be constructed, [Run] prints the error on
    the standard error of the process and exits with 1 at once: the
    author's constructor is not called and no command is built. *)
Theorem Run_bootstrap_error (X : Externals) (makeCmd : M ptr) (meta : Metadata)
    (w : World) (err : error) :
  NewDockerCli X w = Some err ->
  Run X makeCmd meta w
  = (withStderr (osStderr w ++ errorText X err ++ str1 newlineChar) w, Exit 1).
Proof.
  intros Hcli. unfold Run, bind, ask. rewrite Hcli. reflexivity.
Qed.

Lemma Run_bootstrap_error_witness :
  let err := otherError "unable to load config" in
  let X := Scenarios.externals (Some err) None None in
  let w := Scenarios.pluginWorld 2 in
  Run X (panic "the constructor ran") (Examples.metadata "") w
  = (withStderr ("unable to load config" ++ str1 newlineChar) w, Exit 1).
Proof.
  intros err X w.
  exact (Run_bootstrap_error X (panic "the constructor ran")
           (Examples.metadata "") w err eq_refl).
Defined.

(** *** Nothing below [Run] ends the process *)



Lemma neverExits_step {A} (f : World -> World * A) :
  neverExits (fun w => ((f w).1, Val (f w).2)).
Proof. by intros w code. Qed.

















(** ** The metadata document, for well-formed text *)

Lemma coerceRunes_valid (fuel : nat) :
  forall s, String.length s <= fuel ->
    validRunes fuel s = true -> jsonread.coerceRunes fuel s = s.
Proof.
  induction fuel as [|fuel IH]; intros s Hlen Hvalid.
  { by destruct s; [|cbn in Hlen; lia]. }
  destruct s as [|b r]; [done|]. cbn [String.length] in Hlen.
  rewrite coerceRunes_step. cbn [validRunes] in Hvalid.
  destruct (Z.ltb_spec (byteZ b) utf8.RuneSelf) as [Hlt|Hge].
  - rewrite IH; [done|lia|done].
  - pose proof (DecodeRuneInString_decoded b r Hge) as Hd.
    unfold coercePiece.
    destruct (utf8.DecodeRuneInString (String b r)) as [c size].
    cbn [fst snd] in *.
    destruct ((c =? utf8.RuneError)%Z && (size =? 1)%nat); [done|].
    apply decoded_size in Hd as [Hsz _].
    rewrite IH; [apply takeS_dropS| |done].
    rewrite length_dropS. cbn [String.length]. lia.
Qed.

(** Well-formed UTF-8 is read back as it is. *)
Lemma coerceUTF8_valid (s : string) :
  ValidString s = true -> jsonread.coerceUTF8 s = s.
Proof. intros H. by apply coerceRunes_valid. Qed.

Lemma coerceMetadata_valid (m : Metadata) :
  validMetadata m = true -> jsonread.coerceMetadata m = m.
Proof.
  unfold validMetadata. intros H.
  repeat match type of H with
         | _ && _ = true => let H' := fresh "H" in
                            apply andb_true_iff in H as [H H']
         end.
  destruct m as [sv ve vr sd url ex]. unfold jsonread.coerceMetadata.
  cbn [SchemaVersion Vendor Version ShortDescription URL Experimental] in *.
  by rewrite !coerceUTF8_valid.
Qed.

Lemma validMetadata_default (meta : Metadata) (short : string) :
  validMetadata meta = true -> ValidString short = true ->
  validMetadata (defaultShortDescription meta short) = true.
Proof.
  intros Hm Hs. unfold defaultShortDescription.
  destruct (String.eqb (ShortDescription meta) ""); [|done].
  unfold validMetadata in *.
  cbn [withShortDescription SchemaVersion Vendor Version ShortDescription URL].
  apply andb_true_iff in Hm as [Hm Hurl].
  apply andb_true_iff in Hm as [Hm _].
  by rewrite Hm, Hs, Hurl.
Qed.

(** X14: when the strings of the record and the short description of the
    plugin command are well-formed UTF-8, what a metadata query writes
    reads back as exactly the record that was serialized: nothing is lost
    or changed by the escaping and the indentation. *)
Theorem metadata_query_round_trip (X : Externals) (plugin : ptr)
    (pc : cobra.Command) (meta : Metadata) (w : World) :
  oneWordName X ->
  metadataQuery X plugin pc w ->
  validMetadata meta = true ->
  ValidString (cobra.Short pc) = true ->
  exists w' out,
    runPlugin X plugin meta w = (w', Val None) /\
    osStdout w' = (osStdout w ++ out)%string /\
    jsonread.parseMetadata out
    = Some (defaultShortDescription meta (cobra.Short pc)).
Proof.
  intros Hname Hq Hm Hs.
  rewrite (runPlugin_metadataQuery X plugin pc meta w Hname Hq).
  eexists _, _. split; [reflexivity|]. split; [reflexivity|].
  unfold metadataBytes. rewrite parseMetadata_encodeBytes.
  f_equal. apply coerceMetadata_valid. by apply validMetadata_default.
Qed.

Lemma metadata_query_round_trip_witness :
  let w := Examples.queryWorld "An example" Scenarios.accented in
  exists w' out,
    runPlugin Examples.externals 0 Scenarios.accented w = (w', Val None) /\
    osStdout w' = out /\
    jsonread.parseMetadata out = Some Scenarios.accented.
Proof.
  intros w.
  exact (metadata_query_round_trip Examples.externals 0
           (Examples.pluginCommand "An example" 0) Scenarios.accented w
           eq_refl (metadataQuery_example "An example" Scenarios.accented)
           eq_refl eq_refl).
Defined.

(** X15: two well-formed records that differ are serialized to documents
    that differ. *)
Theorem metadataBytes_injective (X : Externals) (m1 m2 : Metadata) :
  validMetadata m1 = true -> validMetadata m2 = true ->
  m1 <> m2 -> metadataBytes X m1 <> metadataBytes X m2.
Proof.
  intros H1 H2 Hne Heq. apply Hne.
  pose proof (parseMetadata_encodeBytes X false m1) as P1.
  pose proof (parseMetadata_encodeBytes X false m2) as P2.
  unfold metadataBytes in Heq. rewrite Heq, P2 in P1.
  rewrite (coerceMetadata_valid m1 H1), (coerceMetadata_valid m2 H2) in P1.
  congruence.
Qed.

Lemma metadataBytes_injective_witness :
  metadataBytes Examples.externals Scenarios.accented
  <> metadataBytes Examples.externals (Examples.metadata "Lists <things>").
Proof.
  apply metadataBytes_injective; [reflexivity|reflexivity|discriminate].
Defined.
